(** * mcp-mysql-simple: the request router, the query guard and the
      connection manager of the MySQL MCP server, embedded in Rocq

    The development follows the server's source class by class:
    [DatabaseConnection], [QueryValidator], [ResponseFormatter],
    [ToolsHandler], [ResourcesHandler], [PromptsHandler] and the request
    handlers installed by [MySQLMCPServer.setupHandlers].

    - A JavaScript string is the list of its UTF-16 code units.
    - A JavaScript value is a term of [jsval] (numbers are left out: a JS
      number is an IEEE double).
    - An [async] method is a function from the state of the world to an
      outcome (a returned value or a thrown [Error]) and a new state; the
      calls of one request are run in sequence, without interleaving.
    - The mysql2 driver and [JSON.stringify] are not part of the
      repository: they are the fields of a [Driver] record that every
      definition takes as a parameter. *)

From Stdlib Require Import List NArith Bool Lia Ascii String.
Import ListNotations.

Local Open Scope N_scope.

(** ** JavaScript strings *)

Module JS.

Definition codeunit := N.
Definition jsstr := list codeunit.

(** The source file is UTF-8; a string literal of the program is the
    UTF-16 reading of its bytes. *)
Fixpoint utf16_of_utf8 (l : list N) : jsstr :=
  match l with
  | [] => []
  | b0 :: t =>
    if b0 <? 128 then b0 :: utf16_of_utf8 t
    else if b0 <? 224 then
      match t with
      | b1 :: t1 => ((b0 - 192) * 64 + (b1 - 128)) :: utf16_of_utf8 t1
      | _ => []
      end
    else if b0 <? 240 then
      match t with
      | b1 :: b2 :: t2 =>
        ((b0 - 224) * 4096 + (b1 - 128) * 64 + (b2 - 128)) :: utf16_of_utf8 t2
      | _ => []
      end
    else
      match t with
      | b1 :: b2 :: b3 :: t3 =>
        let cp := (b0 - 240) * 262144 + (b1 - 128) * 4096
                  + (b2 - 128) * 64 + (b3 - 128) in
        (55296 + (cp - 65536) / 1024) :: (56320 + (cp - 65536) mod 1024)
          :: utf16_of_utf8 t3
      | _ => []
      end
  end.

Definition lit (s : string) : jsstr :=
  utf16_of_utf8 (map N_of_ascii (list_ascii_of_string s)).

Arguments lit : simpl never.

Definition streq (a b : jsstr) : bool :=
  if list_eq_dec N.eq_dec a b then true else false.

(** WhiteSpace and LineTerminator of ECMAScript: what [String.prototype.trim]
    strips and what [\s] matches. *)
Definition isWhiteSpace (c : codeunit) : bool :=
  ((9 <=? c) && (c <=? 13)) || (c =? 32) || (c =? 160) || (c =? 5760)
  || ((8192 <=? c) && (c <=? 8202)) || (c =? 8232) || (c =? 8233)
  || (c =? 8239) || (c =? 8287) || (c =? 12288) || (c =? 65279).

(** LineTerminator: what [.] does not match. *)
Definition isLineTerminator (c : codeunit) : bool :=
  (c =? 10) || (c =? 13) || (c =? 8232) || (c =? 8233).

Fixpoint trimStart (s : jsstr) : jsstr :=
  match s with
  | [] => []
  | c :: t => if isWhiteSpace c then trimStart t else s
  end.

Definition trimEnd (s : jsstr) : jsstr := rev (trimStart (rev s)).

Definition trim (s : jsstr) : jsstr := trimEnd (trimStart s).

Definition isUpper (c : codeunit) : bool := (65 <=? c) && (c <=? 90).
Definition isLower (c : codeunit) : bool := (97 <=? c) && (c <=? 122).
Definition isDigit (c : codeunit) : bool := (48 <=? c) && (c <=? 57).

(** The class [[a-zA-Z0-9_]]. *)
Definition isWordChar (c : codeunit) : bool :=
  isLower c || isUpper c || isDigit c || (c =? 95).

End JS.
Import JS.

(** ** Regular expressions

    The five regular expressions of the program are sequences of
    one-character classes, each taken once, [*] times or [+] times, with
    optional [^] and [$] anchors.  [RegExp.test] answers whether some
    substring matches; none of the expressions has the [g] flag, so
    [test] keeps no state between calls. *)

Module RegExp.

Inductive quant := Once | ZeroOrMore | OneOrMore.

Record atom := Atom { cls : codeunit -> bool; rep : quant }.

Record t := Make { anchorStart : bool; body : list atom; anchorEnd : bool }.

(** A pattern character under the [i] flag (without [u]): both sides are
    canonicalised by [toUpperCase], and a code unit from 128 up never
    canonicalises to one below 128, so an ASCII letter of the pattern
    matches its two ASCII cases and nothing else; any other ASCII
    character matches itself. *)
Definition charI (p : codeunit) : codeunit -> bool :=
  fun x =>
    if isUpper p then (x =? p) || (x =? p + 32)
    else if isLower p then (x =? p) || (x =? p - 32)
    else x =? p.

Definition litI (s : string) : list atom :=
  map (fun p => Atom (charI p) Once) (lit s).

(** [\s] and [.] *)
Definition space (q : quant) : atom := Atom isWhiteSpace q.
Definition dot (q : quant) : atom := Atom (fun x => negb (isLineTerminator x)) q.

Fixpoint matchStar (c : codeunit -> bool) (k : jsstr -> bool) (s : jsstr) : bool :=
  k s || match s with
         | x :: s' => c x && matchStar c k s'
         | [] => false
         end.

(** Does the sequence [p] match a prefix of [s] (all of [s] when [atEnd])? *)
Fixpoint matchHere (p : list atom) (atEnd : bool) (s : jsstr) {struct p} : bool :=
  match p with
  | [] => if atEnd then match s with [] => true | _ => false end else true
  | a :: p' =>
    match rep a with
    | Once =>
      match s with
      | x :: s' => cls a x && matchHere p' atEnd s'
      | [] => false
      end
    | ZeroOrMore => matchStar (cls a) (matchHere p' atEnd) s
    | OneOrMore =>
      match s with
      | x :: s' => cls a x && matchStar (cls a) (matchHere p' atEnd) s'
      | [] => false
      end
    end
  end.

Fixpoint search (k : jsstr -> bool) (s : jsstr) : bool :=
  k s || match s with
         | [] => false
         | _ :: s' => search k s'
         end.

Definition test (r : t) (s : jsstr) : bool :=
  if anchorStart r then matchHere (body r) (anchorEnd r) s
  else search (matchHere (body r) (anchorEnd r)) s.

(** The words a sequence of atoms denotes. *)
Inductive Lang : list atom -> jsstr -> Prop :=
| Lang_nil : Lang [] []
| Lang_once c p x w :
    c x = true -> Lang p w -> Lang (Atom c Once :: p) (x :: w)
| Lang_star_stop c p w :
    Lang p w -> Lang (Atom c ZeroOrMore :: p) w
| Lang_star_step c p x w :
    c x = true -> Lang (Atom c ZeroOrMore :: p) w ->
    Lang (Atom c ZeroOrMore :: p) (x :: w)
| Lang_plus c p x w :
    c x = true -> Lang (Atom c ZeroOrMore :: p) w ->
    Lang (Atom c OneOrMore :: p) (x :: w).

(** [s] has a substring in the language of [r], placed as the anchors ask. *)
Definition Matches (r : t) (s : jsstr) : Prop :=
  exists pre w post,
    s = pre ++ w ++ post /\ Lang (body r) w
    /\ (anchorStart r = true -> pre = [])
    /\ (anchorEnd r = true -> post = []).

End RegExp.

(** ** JavaScript values, outcomes and the driver *)

#[warnings="-register-all"]
Inductive jsval :=
| VUndefined
| VNull
| VBool (b : bool)
| VStr (s : jsstr)
| VArr (l : list jsval)
| VObj (l : list (jsstr * jsval)).

(** The properties of an object, in the order [Object.values] lists them. *)
Definition object := list (jsstr * jsval).

(** [String(v)], the coercion a template literal and [RegExp.test] apply. *)
Fixpoint ToString (v : jsval) : jsstr :=
  match v with
  | VUndefined => lit "undefined"
  | VNull => lit "null"
  | VBool true => lit "true"
  | VBool false => lit "false"
  | VStr s => s
  | VArr l =>
    (fix join (l : list jsval) : jsstr :=
       match l with
       | [] => []
       | x :: t =>
         let e := match x with
                  | VUndefined | VNull => []
                  | _ => ToString x
                  end in
         match t with
         | [] => e
         | _ => e ++ lit "," ++ join t
         end
       end) l
  | VObj _ => lit "[object Object]"
  end.

(** [ToBoolean]: what [if (v)] and [!v] test. *)
Definition truthy (v : jsval) : bool :=
  match v with
  | VUndefined | VNull => false
  | VBool b => b
  | VStr s => match s with [] => false | _ => true end
  | VArr _ | VObj _ => true
  end.

Definition getProp (o : object) (k : jsstr) : jsval :=
  match find (fun kv => streq (fst kv) k) o with
  | Some kv => snd kv
  | None => VUndefined
  end.

(** [args?.k], for [args] absent or an object. *)
Definition optProp (args : option object) (k : jsstr) : jsval :=
  match args with
  | None => VUndefined
  | Some o => getProp o k
  end.

(** Every value the program throws or catches is an [Error] object; its
    [message] is all the program reads of it. *)
Record JsError := mkError { message : jsstr }.

Inductive outcome (A : Type) :=
| Returned (a : A)
| Thrown (e : JsError).
Arguments Returned {A} a.
Arguments Thrown {A} e.

(** [Object.values(v)[0]] *)
Definition firstValue (v : jsval) : outcome jsval :=
  match v with
  | VUndefined | VNull =>
    Thrown (mkError (lit "Cannot convert undefined or null to object"))
  | VBool _ => Returned VUndefined
  | VStr [] => Returned VUndefined
  | VStr (c :: _) => Returned (VStr [c])
  | VArr [] => Returned VUndefined
  | VArr (x :: _) => Returned x
  | VObj [] => Returned VUndefined
  | VObj (kv :: _) => Returned (snd kv)
  end.

Record MySQLConfig := {
  host : jsstr;
  port : N;
  user : jsstr;
  password : jsstr;
  database : option jsstr
}.

(** What [connection.execute] resolves to, first component: the rows of a
    statement that returns rows, or the header of one that does not. *)
Inductive QueryResult :=
| Rows (rows : list jsval)
| Header (h : object).

Definition rowsVal (r : QueryResult) : jsval :=
  match r with
  | Rows l => VArr l
  | Header h => VObj h
  end.

(** The mysql2 driver and the runtime's JSON printer.  [Server] is the
    state of everything behind the driver (network, MySQL server, session);
    [JSON_stringify v] is the text that [JSON.stringify(v, null, 2)]
    contributes to a template literal. *)
Record Driver := {
  Handle : Type;
  Server : Type;
  createConnection : MySQLConfig -> Server -> outcome Handle * Server;
  conn_execute : Handle -> jsstr -> Server -> outcome QueryResult * Server;
  conn_end : Handle -> Server -> outcome unit * Server;
  JSON_stringify : jsval -> jsstr
}.

(** The state a request runs in: the server behind the driver and the
    [connection] field of the one [DatabaseConnection] object, with two
    ghost fields that record what was done: the statements handed to
    [connection.execute], oldest first, and the number of connections
    created and not yet ended. *)
Record World (drv : Driver) := {
  server : Server drv;
  connection : option (Handle drv);
  sent : list jsstr;
  live : nat
}.
Arguments server {drv} w.
Arguments connection {drv} w.
Arguments sent {drv} w.
Arguments live {drv} w.

(** An [async] method: a state transformer that returns or throws. *)
Definition M (drv : Driver) (A : Type) := World drv -> outcome A * World drv.

Definition ret {drv A} (a : A) : M drv A := fun w => (Returned a, w).

Definition throw {drv A} (e : JsError) : M drv A := fun w => (Thrown e, w).

Definition bind {drv A B} (m : M drv A) (k : A -> M drv B) : M drv B :=
  fun w =>
    match m w with
    | (Returned a, w') => k a w'
    | (Thrown e, w') => (Thrown e, w')
    end.

(** [try { m } catch (error) { h error }] *)
Definition tryCatch {drv A} (m : M drv A) (h : JsError -> M drv A) : M drv A :=
  fun w =>
    match m w with
    | (Returned a, w') => (Returned a, w')
    | (Thrown e, w') => h e w'
    end.

Definition lift {drv A} (o : outcome A) : M drv A := fun w => (o, w).

Declare Scope js_scope.
Delimit Scope js_scope with js.
Notation "x <- m ;; k" := (bind m (fun x => k))
  (at level 61, m at next level, right associativity) : js_scope.
Notation "m ;; k" := (bind m (fun _ => k))
  (at level 61, right associativity) : js_scope.
Local Open Scope js_scope.

Definition nl : jsstr := [10].
Definition dq : jsstr := [34].

(** ** The server *)

Section Server.

Variable drv : Driver.
Variable config : MySQLConfig.

(** *** DatabaseConnection *)

Definition connect : M drv unit := fun w =>
  match connection w with
  | Some _ => (Returned tt, w)
  | None =>
    match createConnection drv config (server w) with
    | (Returned h, sv) =>
      (Returned tt,
       {| server := sv; connection := Some h;
          sent := sent w; live := S (live w) |})
    | (Thrown error, sv) =>
      (Thrown (mkError (lit "Falha na conexão: " ++ message error)),
       {| server := sv; connection := None;
          sent := sent w; live := live w |})
    end
  end.

Definition execute (query : jsstr) : M drv QueryResult := fun w =>
  match connection w with
  | None => (Thrown (mkError (lit "Conexão não estabelecida")), w)
  | Some h =>
    let (r, sv) := conn_execute drv h query (server w) in
    (r, {| server := sv; connection := connection w;
           sent := sent w ++ [query]; live := live w |})
  end.

Definition useDatabase (database : jsval) : M drv unit :=
  _ <- execute (lit "USE `" ++ ToString database ++ lit "`") ;; ret tt.

Definition isConnected (w : World drv) : bool :=
  match connection w with
  | Some _ => true
  | None => false
  end.

Definition close : M drv unit := fun w =>
  match connection w with
  | Some h =>
    match conn_end drv h (server w) with
    | (Returned _, sv) =>
      (Returned tt,
       {| server := sv; connection := None;
          sent := sent w; live := pred (live w) |})
    | (Thrown e, sv) =>
      (Thrown e,
       {| server := sv; connection := connection w;
          sent := sent w; live := live w |})
    end
  | None => (Returned tt, w)
  end.

(** *** QueryValidator *)

Definition DANGEROUS_PATTERNS : list RegExp.t :=
  [ RegExp.Make false
      (RegExp.litI "DROP" ++ [RegExp.space RegExp.OneOrMore]
       ++ RegExp.litI "DATABASE") false;
    RegExp.Make false
      (RegExp.litI "DROP" ++ [RegExp.space RegExp.OneOrMore]
       ++ RegExp.litI "TABLE") false;
    RegExp.Make false
      (RegExp.litI "DELETE" ++ [RegExp.space RegExp.OneOrMore]
       ++ RegExp.litI "FROM" ++ [RegExp.dot RegExp.ZeroOrMore]
       ++ RegExp.litI "WHERE" ++ [RegExp.dot RegExp.ZeroOrMore]
       ++ RegExp.litI "1" ++ [RegExp.space RegExp.ZeroOrMore]
       ++ RegExp.litI "=" ++ [RegExp.space RegExp.ZeroOrMore]
       ++ RegExp.litI "1") false;
    RegExp.Make false (RegExp.litI "TRUNCATE") false ].

(** The [for] loop of [validate]: the first pattern that matches throws. *)
Fixpoint checkPatterns (ps : list RegExp.t) (normalizedQuery : jsstr)
  : outcome unit :=
  match ps with
  | [] => Returned tt
  | pattern :: rest =>
    if RegExp.test pattern normalizedQuery
    then Thrown (mkError (lit "Query contém operações potencialmente perigosas"))
    else checkPatterns rest normalizedQuery
  end.

(** [query.trim()] is a [TypeError] when [query] is not a string; the
    messages of these two errors are the engine's (V8's wording here). *)
Definition validate (query : jsval) : outcome unit :=
  match query with
  | VStr s =>
    let normalizedQuery := trim s in
    match normalizedQuery with
    | [] => Thrown (mkError (lit "Query não pode estar vazia"))
    | _ => checkPatterns DANGEROUS_PATTERNS normalizedQuery
    end
  | VUndefined =>
    Thrown (mkError (lit "Cannot read properties of undefined (reading 'trim')"))
  | VNull =>
    Thrown (mkError (lit "Cannot read properties of null (reading 'trim')"))
  | _ => Thrown (mkError (lit "query.trim is not a function"))
  end.

(** [/^[a-zA-Z0-9_]+$/] *)
Definition TABLE_NAME : RegExp.t :=
  RegExp.Make true [RegExp.Atom isWordChar RegExp.OneOrMore] true.

Definition sanitizeTableName (tableName : jsval) : outcome jsval :=
  if negb (RegExp.test TABLE_NAME (ToString tableName))
  then Thrown (mkError (lit "Nome de tabela inválido"))
  else Returned tableName.

(** *** ResponseFormatter *)

Record TextContent := { type : jsstr; text : jsstr }.

Record ToolResult := { content : list TextContent }.

Definition success (content : jsstr) : ToolResult :=
  {| content := [ {| type := lit "text"; text := content |} ] |}.

Definition error (message : jsstr) : ToolResult :=
  {| content := [ {| type := lit "text"; text := lit "❌ Erro: " ++ message |} ] |}.

Definition queryResult (query : jsval) (data : jsval) : ToolResult :=
  success
    (lit "Resultado da query:" ++ nl ++ lit "```sql" ++ nl ++ ToString query
     ++ nl ++ lit "```" ++ nl ++ nl ++ lit "Resultados:" ++ nl ++ lit "```json"
     ++ nl ++ JSON_stringify drv data ++ nl ++ lit "```").

Definition tableStructure (tableName : jsval) (data : jsval) : ToolResult :=
  success
    (lit "Estrutura da tabela " ++ dq ++ ToString tableName ++ dq ++ lit ":"
     ++ nl ++ lit "```json" ++ nl ++ JSON_stringify drv data ++ nl ++ lit "```").

(** *** ToolsHandler *)

(** After [validate] has returned, [query] is a string, and the coercion
    in [execute (ToString query)] is the identity. *)
Definition executeQuery (query database : jsval) : M drv ToolResult :=
  tryCatch
    (_ <- lift (validate query) ;;
     _ <- (if truthy database then useDatabase database else ret tt) ;;
     rows <- execute (ToString query) ;;
     ret (queryResult query (rowsVal rows)))
    (fun error' => ret (error (message error'))).

Definition describeTable (tableName database : jsval) : M drv ToolResult :=
  tryCatch
    (sanitizedName <- lift (sanitizeTableName tableName) ;;
     _ <- (if truthy database then useDatabase database else ret tt) ;;
     rows <- execute (lit "DESCRIBE `" ++ ToString sanitizedName ++ lit "`") ;;
     ret (tableStructure sanitizedName (rowsVal rows)))
    (fun error' => ret (error (message error'))).

(** *** ResourcesHandler *)

Record ResourceContent := { uri : jsstr; mimeType : jsstr; res_text : jsstr }.

Record ReadResourceResult := { contents : list ResourceContent }.

Definition getDatabases : M drv ReadResourceResult :=
  rows <- execute (lit "SHOW DATABASES") ;;
  ret {| contents :=
           [ {| uri := lit "mysql://databases";
                mimeType := lit "application/json";
                res_text := JSON_stringify drv (rowsVal rows) |} ] |}.

Definition getTables : M drv ReadResourceResult :=
  rows <- execute (lit "SHOW TABLES") ;;
  ret {| contents :=
           [ {| uri := lit "mysql://tables";
                mimeType := lit "application/json";
                res_text := JSON_stringify drv (rowsVal rows) |} ] |}.

(** One entry of [schema.tables]. *)
Definition tableEntry (tableName columns : jsval) : jsval :=
  VObj [ (lit "name", tableName); (lit "columns", columns) ].

(** The [for] loop of [getSchema]; [acc] is [schema.tables] so far. *)
Fixpoint describeAll (tables : list jsval) (acc : list jsval)
  : M drv (list jsval) :=
  match tables with
  | [] => ret acc
  | table :: rest =>
    tableName <- lift (firstValue table) ;;
    columns <- execute (lit "DESCRIBE `" ++ ToString tableName ++ lit "`") ;;
    describeAll rest (acc ++ [tableEntry tableName (rowsVal columns)])
  end.

(** A statement that returns no rows resolves to a header object, which
    [for ... of] cannot iterate (a [TypeError], in V8's wording). *)
Definition getSchema : M drv ReadResourceResult :=
  tables <- execute (lit "SHOW TABLES") ;;
  match tables with
  | Rows l =>
    entries <- describeAll l [] ;;
    ret {| contents :=
             [ {| uri := lit "mysql://schema";
                  mimeType := lit "application/json";
                  res_text :=
                    JSON_stringify drv (VObj [ (lit "tables", VArr entries) ]) |} ] |}
  | Header _ => throw (mkError (lit "tables is not iterable"))
  end.

End Server.

(** *** PromptsHandler *)

Record PromptArgument := {
  arg_name : jsstr;
  arg_description : jsstr;
  required : bool
}.

Record Prompt := {
  prompt_name : jsstr;
  prompt_description : jsstr;
  arguments : option (list PromptArgument)
}.

Record ListPromptsResult := { prompts : list Prompt }.

Record PromptMessage := { role : jsstr; msg_content : TextContent }.

Record GetPromptResult := { description : jsstr; messages : list PromptMessage }.

Definition getPrompts : ListPromptsResult :=
  {| prompts :=
       [ {| prompt_name := lit "analyze_table";
            prompt_description := lit "Analisa uma tabela específica";
            arguments :=
              Some [ {| arg_name := lit "table_name";
                        arg_description := lit "Nome da tabela para analisar";
                        required := true |} ] |};
         {| prompt_name := lit "find_large_tables";
            prompt_description := lit "Encontra tabelas com mais registros";
            arguments := None |};
         {| prompt_name := lit "database_overview";
            prompt_description := lit "Visão geral do banco de dados";
            arguments := None |} ] |}.

Definition userText (t : jsstr) : PromptMessage :=
  {| role := lit "user"; msg_content := {| type := lit "text"; text := t |} |}.

(** The blank second line of the three templates: fourteen spaces. *)
Definition indent : jsstr := lit "              ".

Definition getPrompt (name : jsstr) (args : option object)
  : outcome GetPromptResult :=
  if streq name (lit "analyze_table") then
    let tableName := optProp args (lit "table_name") in
    if negb (truthy tableName)
    then Thrown (mkError (lit "table_name é obrigatório"))
    else Returned
      {| description := lit "Análise da tabela " ++ ToString tableName;
         messages :=
           [ userText
               (lit "Analise a tabela " ++ dq ++ ToString tableName ++ dq
                ++ lit ":" ++ nl ++ indent ++ nl
                ++ lit "1. Descreva a estrutura da tabela" ++ nl
                ++ lit "2. Mostre alguns dados de exemplo " ++ nl
                ++ lit "3. Calcule estatísticas básicas (contagem de registros)"
                ++ nl
                ++ lit "4. Identifique possíveis problemas ou oportunidades de otimização") ] |}
  else if streq name (lit "find_large_tables") then
    Returned
      {| description := lit "Encontrar tabelas com mais registros";
         messages :=
           [ userText
               (lit "Liste todas as tabelas do banco atual:" ++ nl ++ indent
                ++ nl
                ++ lit "1. Número de registros de cada tabela" ++ nl
                ++ lit "2. Ordene por quantidade (maior para menor)" ++ nl
                ++ lit "3. Identifique as 5 maiores tabelas" ++ nl
                ++ lit "4. Sugira estratégias de otimização se necessário") ] |}
  else if streq name (lit "database_overview") then
    Returned
      {| description := lit "Visão geral do banco de dados";
         messages :=
           [ userText
               (lit "Visão geral completa do banco:" ++ nl ++ indent ++ nl
                ++ lit "1. Liste todos os bancos disponíveis" ++ nl
                ++ lit "2. Para o banco atual, mostre todas as tabelas" ++ nl
                ++ lit "3. Identifique relacionamentos entre tabelas" ++ nl
                ++ lit "4. Sugira melhorias na estrutura") ] |}
  else Thrown (mkError (lit "Prompt não encontrado: " ++ name)).

(** *** MySQLMCPServer: the request handlers of [setupHandlers] *)

Record ToolProperty := { prop_name : jsstr; prop_description : jsstr }.

Record Tool := {
  tool_name : jsstr;
  tool_description : jsstr;
  properties : list ToolProperty;
  required_properties : list jsstr
}.

Record Resource := {
  resource_uri : jsstr;
  resource_name : jsstr;
  resource_description : jsstr;
  resource_mimeType : jsstr
}.

Inductive Request :=
| ListTools
| CallTool (name : jsstr) (args : option object)
| ListResources
| ReadResource (uri : jsstr)
| ListPrompts
| GetPrompt (name : jsstr) (args : option object).

Inductive Response :=
| ToolList (tools : list Tool)
| ToolResponse (r : ToolResult)
| ResourceList (resources : list Resource)
| ResourceResponse (r : ReadResourceResult)
| PromptList (r : ListPromptsResult)
| PromptResponse (r : GetPromptResult).

Definition isPromptRequest (req : Request) : bool :=
  match req with
  | ListPrompts | GetPrompt _ _ => true
  | _ => false
  end.

Definition tools : list Tool :=
  [ {| tool_name := lit "execute_query";
       tool_description := lit "Executa uma query SQL no banco MySQL";
       properties :=
         [ {| prop_name := lit "query";
              prop_description := lit "A query SQL para executar" |};
           {| prop_name := lit "database";
              prop_description := lit "Banco de dados opcional" |} ];
       required_properties := [ lit "query" ] |};
    {| tool_name := lit "describe_table";
       tool_description := lit "Descreve a estrutura de uma tabela";
       properties :=
         [ {| prop_name := lit "table_name";
              prop_description := lit "Nome da tabela para descrever" |};
           {| prop_name := lit "database";
              prop_description := lit "Nome do banco de dados" |} ];
       required_properties := [ lit "table_name" ] |} ].

Definition resources : list Resource :=
  [ {| resource_uri := lit "mysql://databases";
       resource_name := lit "Lista de Bancos de Dados";
       resource_description := lit "Lista todos os bancos de dados disponíveis";
       resource_mimeType := lit "application/json" |};
    {| resource_uri := lit "mysql://tables";
       resource_name := lit "Lista de Tabelas";
       resource_description := lit "Lista todas as tabelas do banco atual";
       resource_mimeType := lit "application/json" |};
    {| resource_uri := lit "mysql://schema";
       resource_name := lit "Schema do Banco";
       resource_description := lit "Schema completo do banco de dados atual";
       resource_mimeType := lit "application/json" |} ].

Section Router.

Variable drv : Driver.
Variable config : MySQLConfig.

Definition ensureConnection : M drv unit := fun w =>
  if negb (isConnected drv w) then connect drv config w else (Returned tt, w).

Definition callTool (name : jsstr) (args : option object) : M drv ToolResult :=
  tryCatch
    (_ <- ensureConnection ;;
     if streq name (lit "execute_query") then
       executeQuery drv (optProp args (lit "query"))
                        (optProp args (lit "database"))
     else if streq name (lit "describe_table") then
       describeTable drv (optProp args (lit "table_name"))
                         (optProp args (lit "database"))
     else ret (error (lit "Tool desconhecido: " ++ name)))
    (fun error' =>
       ret (error (lit "Erro ao executar " ++ name ++ lit ": "
                   ++ message error'))).

Definition readResource (uri : jsstr) : M drv ReadResourceResult :=
  tryCatch
    (_ <- ensureConnection ;;
     if streq uri (lit "mysql://databases") then getDatabases drv
     else if streq uri (lit "mysql://tables") then getTables drv
     else if streq uri (lit "mysql://schema") then getSchema drv
     else throw (mkError (lit "Resource não encontrado: " ++ uri)))
    (fun error' =>
       throw (mkError (lit "Erro ao ler resource " ++ uri ++ lit ": "
                       ++ message error'))).

(** The handler the server runs for a request; a [Thrown] outcome leaves
    the handler and reaches the protocol layer. *)
Definition handle (req : Request) : M drv Response :=
  match req with
  | ListTools => ret (ToolList tools)
  | CallTool name args => r <- callTool name args ;; ret (ToolResponse r)
  | ListResources => ret (ResourceList resources)
  | ReadResource uri => r <- readResource uri ;; ret (ResourceResponse r)
  | ListPrompts => ret (PromptList getPrompts)
  | GetPrompt name args =>
    r <- lift (getPrompt name args) ;; ret (PromptResponse r)
  end.


End Router.

(** ** A sample driver

    An in-memory stand-in for mysql2 and a MySQL server, used to run the
    handlers on concrete requests: the server is reachable or not, and
    holds the tables of one database with their column rows. *)

Module Sample.

Record server_state := {
  reachable : bool;
  tables_of : list (jsstr * list jsval)
}.

Fixpoint stripPrefix (p s : jsstr) : option jsstr :=
  match p, s with
  | [], _ => Some s
  | a :: p', b :: s' => if a =? b then stripPrefix p' s' else None
  | _ :: _, [] => None
  end.

(** The name between the back quotes of [DESCRIBE `name`]. *)
Definition describedName (q : jsstr) : option jsstr :=
  match stripPrefix (lit "DESCRIBE `") q with
  | Some r =>
    match rev r with
    | 96 :: n => Some (rev n)
    | _ => None
    end
  | None => None
  end.

Definition run (q : jsstr) (sv : server_state) : outcome QueryResult :=
  if streq q (lit "SHOW TABLES") then
    Returned (Rows (map (fun t => VObj [ (lit "Tables_in_shop", VStr (fst t)) ])
                        (tables_of sv)))
  else if streq q (lit "SHOW DATABASES") then
    Returned (Rows [ VObj [ (lit "Database", VStr (lit "shop")) ] ])
  else
    match describedName q with
    | Some n =>
      match find (fun t => streq (fst t) n) (tables_of sv) with
      | Some t => Returned (Rows (snd t))
      | None => Thrown (mkError (lit "Table 'shop." ++ n ++ lit "' doesn't exist"))
      end
    | None =>
      match stripPrefix (lit "USE `") q with
      | Some _ => Returned (Header [])
      | None => Returned (Rows [])
      end
    end.

(** A compact printer standing in for [JSON.stringify]. *)
Fixpoint show (v : jsval) : jsstr :=
  match v with
  | VUndefined => lit "undefined"
  | VNull => lit "null"
  | VBool true => lit "true"
  | VBool false => lit "false"
  | VStr s => dq ++ s ++ dq
  | VArr l =>
    lit "[" ++ (fix go (l : list jsval) : jsstr :=
                  match l with
                  | [] => []
                  | x :: t => show x ++ lit "," ++ go t
                  end) l ++ lit "]"
  | VObj l =>
    lit "{" ++ (fix go (l : list (jsstr * jsval)) : jsstr :=
                  match l with
                  | [] => []
                  | (k, x) :: t => dq ++ k ++ dq ++ lit ":" ++ show x ++ lit "," ++ go t
                  end) l ++ lit "}"
  end.

Definition driver : Driver :=
  {| Handle := unit;
     Server := server_state;
     createConnection := fun _ sv =>
       if reachable sv then (Returned tt, sv)
       else (Thrown (mkError (lit "connect ECONNREFUSED 127.0.0.1:3306")), sv);
     conn_execute := fun _ q sv => (run q sv, sv);
     conn_end := fun _ sv => (Returned tt, sv);
     JSON_stringify := show |}.

Definition config : MySQLConfig :=
  {| host := lit "localhost"; port := 3306; user := lit "root";
     password := []; database := Some (lit "shop") |}.

Definition column (field ty : string) : jsval :=
  VObj [ (lit "Field", VStr (lit field)); (lit "Type", VStr (lit ty));
         (lit "Null", VStr (lit "NO")); (lit "Key", VStr []);
         (lit "Default", VNull); (lit "Extra", VStr []) ].

Definition users_columns : list jsval :=
  [ column "id" "int"; column "email" "varchar(255)" ].

Definition order_items_columns : list jsval :=
  [ column "order_id" "int"; column "sku" "varchar(64)" ].

(** Two tables with plain names. *)
Definition shop : server_state :=
  {| reachable := true;
     tables_of := [ (lit "users", users_columns);
                    (lit "orders", order_items_columns) ] |}.

(** A table whose name needs its back quotes. *)
Definition shop_dashed : server_state :=
  {| reachable := true;
     tables_of := [ (lit "users", users_columns);
                    (lit "order-items", order_items_columns) ] |}.

Definition unreachable : server_state :=
  {| reachable := false; tables_of := [] |}.

(** The world before the first request, and after a connection is made. *)
Definition fresh (sv : server_state) : World driver :=
  Build_World driver sv None [] 0.

Definition connected (sv : server_state) : World driver :=
  Build_World driver sv (Some tt) [] 1.

End Sample.

(** ** Properties named by the specification *)

(** ASCII case folding, and "contains [p], in any letter case". *)
Definition toLowerAscii (c : codeunit) : codeunit :=
  if isUpper c then c + 32 else c.

Definition eqIgnoreCase (a b : codeunit) : bool :=
  toLowerAscii a =? toLowerAscii b.

Definition containsIgnoreCase (p s : jsstr) : Prop :=
  exists pre w post,
    s = pre ++ w ++ post /\ Forall2 (fun x c => eqIgnoreCase x c = true) w p.

(** Empty or made of white space only. *)
Definition blank (s : jsstr) : bool := forallb isWhiteSpace s.

(** Non-empty and made of characters of [[A-Za-z0-9_]] only. *)
Definition isIdentifier (s : jsstr) : bool :=
  match s with
  | [] => false
  | _ => forallb isWordChar s
  end.

(** Shorthands for the messages and statements of the program. *)
Abbreviation dangerousMessage :=
  (lit "Query contém operações potencialmente perigosas").

Abbreviation emptyMessage := (lit "Query não pode estar vazia").

Abbreviation invalidNameMessage := (lit "Nome de tabela inválido").

Abbreviation showTables := (lit "SHOW TABLES").

Abbreviation describeStatement tableName :=
  (lit "DESCRIBE `" ++ ToString tableName ++ lit "`").

Abbreviation useStatement database :=
  (lit "USE `" ++ ToString database ++ lit "`").

(** What [getTables] and [getSchema] return for given rows and entries. *)
Definition tablesResource (drv : Driver) (rows : list jsval) : ReadResourceResult :=
  {| contents :=
       [ {| uri := lit "mysql://tables";
            mimeType := lit "application/json";
            res_text := JSON_stringify drv (VArr rows) |} ] |}.

Definition schemaResource (drv : Driver) (entries : list (jsval * jsval))
  : ReadResourceResult :=
  {| contents :=
       [ {| uri := lit "mysql://schema";
            mimeType := lit "application/json";
            res_text :=
              JSON_stringify drv
                (VObj [ (lit "tables",
                         VArr (map (fun e => tableEntry (fst e) (snd e)) entries)) ]) |} ] |}.

(** The statements of [getTables] and [getSchema] leave the state behind
    the driver as it is. *)
Definition heldFixed (drv : Driver) (h : Handle drv) (sv : Server drv) : Prop :=
  snd (conn_execute drv h showTables sv) = sv
  /\ forall tableName, snd (conn_execute drv h (describeStatement tableName) sv) = sv.

(** What ties the output [out] of [getSchema] to [getTables] and to
    [describeTable], in the state [w]: the names of the entries are the
    first values of the rows [getTables] prints, in their order, and an
    entry whose name passes the table-name check holds the rows that
    [describeTable] shows for that name. *)
Definition schemaRoundTrip (drv : Driver) (w : World drv)
  (out : ReadResourceResult) : Prop :=
  exists (rows : list jsval) (entries : list (jsval * jsval)),
    fst (getTables drv w) = Returned (tablesResource drv rows)
    /\ out = schemaResource drv entries
    /\ Forall2 (fun row e => firstValue row = Returned (fst e)) rows entries
    /\ Forall (fun e =>
                 isIdentifier (ToString (fst e)) = true ->
                 fst (describeTable drv (fst e) VUndefined w)
                 = Returned (tableStructure drv (fst e) (snd e)))
              entries.

(** What an entry of the schema holds: the rows the driver answers to
    [DESCRIBE] of its name. *)
Definition described (drv : Driver) (h : Handle drv) (sv : Server drv)
  (e : jsval * jsval) : Prop :=
  exists r,
    fst (conn_execute drv h (describeStatement (fst e)) sv) = Returned r
    /\ snd e = rowsVal r.

(** Boolean tests on code units, read as propositions. *)
Ltac bools :=
  repeat match goal with
         | H : andb _ _ = true |- _ => apply andb_true_iff in H as [? ?]
         | H : orb _ _ = true |- _ => apply orb_true_iff in H as [?|?]
         | H : andb _ _ = false |- _ => apply andb_false_iff in H as [?|?]
         | H : orb _ _ = false |- _ => apply orb_false_iff in H as [? ?]
         | H : N.leb _ _ = true |- _ => apply N.leb_le in H
         | H : N.leb _ _ = false |- _ => apply N.leb_gt in H
         | H : N.eqb _ _ = true |- _ => apply N.eqb_eq in H
         | H : N.eqb _ _ = false |- _ => apply N.eqb_neq in H
         end.

(** ** Further definitions *)

(** "[s] mentions [p]", in any letter case, as a test. *)
Fixpoint prefixIgnoreCase (p s : jsstr) : bool :=
  match p, s with
  | [], _ => true
  | c :: p', x :: s' => eqIgnoreCase x c && prefixIgnoreCase p' s'
  | _ :: _, [] => false
  end.

Fixpoint mentions (p s : jsstr) : bool :=
  prefixIgnoreCase p s
  || match s with
     | [] => false
     | _ :: s' => mentions p s'
     end.

(** Without a line terminator: what [.*] can run over. *)
Definition singleLine (s : jsstr) : bool :=
  forallb (fun x => negb (isLineTerminator x)) s.

(** [args] gives a truthy value for every argument the catalogue marks
    as required for the prompt [p]. *)
Definition suppliesRequired (p : Prompt) (args : option object) : Prop :=
  forall a,
    In a (match arguments p with Some l => l | None => [] end) ->
    required a = true ->
    truthy (optProp args (arg_name a)) = true.


(** [w'] holds the connection of [w], and no connection was made or ended
    on the way. *)
Definition sameConnection {drv : Driver} (w w' : World drv) : Prop :=
  connection w' = connection w /\ live w' = live w.

Definition framed {drv : Driver} {A : Type} (m : M drv A) : Prop :=
  forall w, sameConnection w (snd (m w)).

(** *** DatabaseConfig

    [process.env] is a map from names to strings; a name that is not set
    reads as [undefined].  A number is an integer with its sign, or [NaN];
    [parseInt] is exact below 2^53. *)

Definition Env := jsstr -> option jsstr.

Inductive jsint :=
| NaN
| Int (negative : bool) (magnitude : N).

(** [a || b] on an optional string: the empty string is falsy. *)
Definition orElse (a : option jsstr) (b : jsstr) : jsstr :=
  match a with
  | Some (c :: s) => c :: s
  | _ => b
  end.

(** The value of a character as a digit of the given radix. *)
Definition digitValue (radix : N) (c : codeunit) : option N :=
  let d := if isDigit c then Some (c - 48)
           else if isLower c then Some (c - 87)
           else if isUpper c then Some (c - 55)
           else None in
  match d with
  | Some v => if v <? radix then Some v else None
  | None => None
  end.

(** The longest prefix of digits, read as a number; [None] when it is
    empty. *)
Fixpoint readDigits (radix acc : N) (seen : bool) (s : jsstr) : option N :=
  match s with
  | c :: t =>
    match digitValue radix c with
    | Some d => readDigits radix (acc * radix + d) true t
    | None => if seen then Some acc else None
    end
  | [] => if seen then Some acc else None
  end.

(** Does the string start with "0x" or "0X"? *)
Definition hexPrefixed (s : jsstr) : bool :=
  match s with
  | a :: b :: _ => (a =? 48) && ((b =? 120) || (b =? 88))
  | _ => false
  end.

(** [parseInt(s)], with no radix argument: leading white space is
    skipped, a sign is read, "0x" selects radix 16, and the digits are
    read as far as they go. *)
Definition parseInt (s : jsstr) : jsint :=
  let S := trimStart s in
  let signed :=
    match S with
    | c :: t =>
      if c =? 45 then (true, t) else if c =? 43 then (false, t) else (false, S)
    | [] => (false, S)
    end in
  let based :=
    if hexPrefixed (snd signed) then (16, skipn 2 (snd signed))
    else (10, snd signed) in
  match readDigits (fst based) 0 false (snd based) with
  | Some n => Int (fst signed) n
  | None => NaN
  end.

(** The configuration as [DatabaseConfig.create] builds it: [MySQLConfig]
    with the port as [parseInt] returns it. *)
Record EnvConfig := {
  env_host : jsstr;
  env_port : jsint;
  env_user : jsstr;
  env_password : jsstr;
  env_database : option jsstr
}.

Definition create (env : Env) : EnvConfig :=
  {| env_host := orElse (env (lit "MYSQL_HOST")) (lit "localhost");
     env_port := parseInt (orElse (env (lit "MYSQL_PORT")) (lit "3306"));
     env_user := orElse (env (lit "MYSQL_USER")) (lit "root");
     env_password :=
       orElse (env (lit "MYSQL_PASSWORD")) (orElse (env (lit "MYSQL_PASS")) []);
     env_database :=
       match env (lit "MYSQL_DATABASE") with
       | Some (c :: s) => Some (c :: s)
       | _ => env (lit "MYSQL_DB")
       end |}.

(** The number a string of decimal digits denotes. *)
Definition decimalValue (ds : jsstr) : N :=
  fold_left (fun acc c => acc * 10 + (c - 48)) ds 0.

(** *** The connection test script

    [testMySQLConnection] of the stand-alone script: it opens a connection
    of its own, runs four statements, looks at up to three tables and ends
    the connection.  What it prints is left out; the expressions it prints
    are evaluated, since they can throw.  [process.exit] ends the script at
    once: a [finally] block that has not yet run is not run. *)

Module ConnectionTest.

Definition config : MySQLConfig :=
  {| host := lit "127.0.0.1"; port := 3307; user := lit "root";
     password := lit "root"; database := Some (lit "voompcreators_back") |}.








Section Script.

Variable drv : Driver.







End Script.




End ConnectionTest.

(** A sample server that also answers the [SELECT] statements of the
    script with one row. *)
Module ScriptSample.

Definition run (q : jsstr) (sv : Sample.server_state) : outcome QueryResult :=
  if streq q (lit "DESCRIBE `orders`")
  then Thrown (mkError (lit "Table 'shop.orders' doesn't exist"))
  else
    match Sample.stripPrefix (lit "SELECT ") q with
    | Some _ => Returned (Rows [ VObj [ (lit "value", VStr (lit "8")) ] ])
    | None => Sample.run q sv
    end.

Definition driver : Driver :=
  {| Handle := unit;
     Server := Sample.server_state;
     createConnection := fun _ sv =>
       if Sample.reachable sv then (Returned tt, sv)
       else (Thrown (mkError (lit "connect ECONNREFUSED 127.0.0.1:3307")), sv);
     conn_execute := fun _ q sv => (run q sv, sv);
     conn_end := fun _ sv => (Returned tt, sv);
     JSON_stringify := Sample.show |}.

Definition fresh (sv : Sample.server_state) : World driver :=
  Build_World driver sv None [] 0.


End ScriptSample.

(** ** Facts about strings and regular expressions *)

Module RegExpFacts.
Import RegExp.

Lemma matchStar_intro c k w rest :
  forallb c w = true -> k rest = true -> matchStar c k (w ++ rest) = true.
Proof.
  induction w as [|x w IH]; simpl; intros Hw Hk.
  - destruct rest; simpl; rewrite Hk; reflexivity.
  - apply andb_true_iff in Hw as [Hx Hw].
    rewrite Hx, (IH Hw Hk). simpl. apply orb_true_r.
Qed.

Lemma matchStar_elim c k s :
  matchStar c k s = true ->
  exists w rest, s = w ++ rest /\ forallb c w = true /\ k rest = true.
Proof.
  induction s as [|x s IH]; simpl; intros H.
  - rewrite orb_false_r in H. exists [], []. auto.
  - apply orb_true_iff in H as [H|H].
    + exists [], (x :: s). auto.
    + apply andb_true_iff in H as [Hx H].
      destruct (IH H) as (w & rest & -> & Hw & Hk).
      exists (x :: w), rest. simpl. rewrite Hx, Hw. auto.
Qed.

Lemma Lang_star_app c p w1 w2 :
  forallb c w1 = true -> Lang p w2 -> Lang (Atom c ZeroOrMore :: p) (w1 ++ w2).
Proof.
  induction w1 as [|x w1 IH]; simpl; intros H1 H2.
  - now apply Lang_star_stop.
  - apply andb_true_iff in H1 as [Hx H1].
    apply Lang_star_step; auto.
Qed.

Lemma Lang_star_split c p w :
  Lang (Atom c ZeroOrMore :: p) w ->
  exists w1 w2, w = w1 ++ w2 /\ forallb c w1 = true /\ Lang p w2.
Proof.
  intros H. remember (Atom c ZeroOrMore :: p) as r eqn:Er.
  induction H; inversion Er; subst.
  - exists [], w. auto.
  - destruct (IHLang eq_refl) as (w1 & w2 & -> & H1 & H2).
    exists (x :: w1), w2. simpl. rewrite H, H1. auto.
Qed.

Lemma Lang_once_inv c p s :
  Lang (Atom c Once :: p) s ->
  exists x w, s = x :: w /\ c x = true /\ Lang p w.
Proof. intros H. inversion H; subst. eauto. Qed.

Lemma Lang_plus_inv c p s :
  Lang (Atom c OneOrMore :: p) s ->
  exists x w, s = x :: w /\ c x = true /\ Lang (Atom c ZeroOrMore :: p) w.
Proof. intros H. inversion H; subst. eauto. Qed.

(** The matcher decides the language: soundness and completeness. *)
Lemma matchHere_spec p atEnd s :
  matchHere p atEnd s = true <->
  exists w rest, s = w ++ rest /\ Lang p w /\ (atEnd = true -> rest = []).
Proof.
  revert s. induction p as [|[c q] p IH]; intros s.
  - simpl. split.
    + intros H. exists [], s. repeat split; [constructor|].
      intros ->. destruct s; [reflexivity | discriminate].
    + intros (w & rest & -> & HL & He). inversion HL; subst. simpl.
      destruct atEnd; [|reflexivity]. now rewrite He.
  - destruct q; simpl.
    + split.
      * destruct s as [|x s]; [discriminate|]. intros H.
        apply andb_true_iff in H as [Hx H]. apply IH in H.
        destruct H as (w & rest & -> & HL & He).
        exists (x :: w), rest. repeat split; auto. now constructor.
      * intros (w & rest & -> & HL & He).
        apply Lang_once_inv in HL as (x & w' & -> & Hx & HL). simpl.
        rewrite Hx. simpl. apply IH. eauto.
    + split.
      * intros H. apply matchStar_elim in H as (w1 & r1 & -> & H1 & H).
        apply IH in H as (w2 & rest & -> & HL & He).
        exists (w1 ++ w2), rest. rewrite app_assoc.
        repeat split; auto. now apply Lang_star_app.
      * intros (w & rest & -> & HL & He).
        apply Lang_star_split in HL as (w1 & w2 & -> & H1 & H2).
        rewrite <- app_assoc. apply matchStar_intro; auto.
        apply IH. eauto.
    + split.
      * destruct s as [|x s]; [discriminate|]. intros H.
        apply andb_true_iff in H as [Hx H].
        apply matchStar_elim in H as (w1 & r1 & -> & H1 & H).
        apply IH in H as (w2 & rest & -> & HL & He).
        exists (x :: w1 ++ w2), rest. simpl. rewrite app_assoc.
        repeat split; auto. constructor; auto. now apply Lang_star_app.
      * intros (w & rest & -> & HL & He).
        apply Lang_plus_inv in HL as (x & w' & -> & Hx & HL). simpl.
        rewrite Hx. simpl.
        apply Lang_star_split in HL as (w1 & w2 & -> & H1 & H3).
        rewrite <- app_assoc. apply matchStar_intro; auto.
        apply IH. eauto.
Qed.

Lemma search_spec k s :
  search k s = true <-> exists pre rest, s = pre ++ rest /\ k rest = true.
Proof.
  split.
  - induction s as [|x s IH]; simpl; intros H.
    + rewrite orb_false_r in H. exists [], []. auto.
    + apply orb_true_iff in H as [H|H].
      * exists [], (x :: s). auto.
      * destruct (IH H) as (pre & rest & -> & Hk). exists (x :: pre), rest. auto.
  - intros (pre & rest & -> & Hk). induction pre as [|x pre IH]; simpl.
    + destruct rest; simpl; rewrite Hk; reflexivity.
    + rewrite IH. apply orb_true_r.
Qed.

(** [RegExp.test] answers [true] exactly on the strings that match. *)
Lemma test_spec r s : test r s = true <-> Matches r s.
Proof.
  unfold test, Matches. destruct (anchorStart r) eqn:Ea.
  - rewrite matchHere_spec. split.
    + intros (w & rest & -> & HL & He). exists [], w, rest. auto.
    + intros (pre & w & post & -> & HL & Hp & He). rewrite (Hp eq_refl).
      exists w, post. auto.
  - rewrite search_spec. split.
    + intros (pre & rest & -> & H). apply matchHere_spec in H.
      destruct H as (w & post & -> & HL & He). exists pre, w, post.
      repeat split; auto. discriminate.
    + intros (pre & w & post & -> & HL & _ & He). exists pre, (w ++ post).
      split; auto. apply matchHere_spec. eauto.
Qed.

Lemma Lang_litI_chars ps w :
  Forall2 (fun x p => charI p x = true) w ps ->
  Lang (map (fun p => Atom (charI p) Once) ps) w.
Proof.
  induction 1; simpl; constructor; auto.
Qed.

End RegExpFacts.

Module StringFacts.

Lemma trimStart_blank s : blank s = true -> trimStart s = [].
Proof.
  induction s as [|c s IH]; simpl; auto.
  intros H. apply andb_true_iff in H as [Hc H]. now rewrite Hc, IH.
Qed.

Lemma trim_blank s : blank s = true -> trim s = [].
Proof.
  intros H. unfold trim, trimEnd. now rewrite (trimStart_blank s H).
Qed.

Lemma trimStart_keeps pre x r :
  isWhiteSpace x = false ->
  exists pre', trimStart (pre ++ x :: r) = pre' ++ x :: r.
Proof.
  intros Hx. induction pre as [|c pre IH]; simpl.
  - rewrite Hx. now exists [].
  - destruct (isWhiteSpace c).
    + exact IH.
    + now exists (c :: pre).
Qed.

(** Trimming removes nothing from a word without white space, wherever it
    stands in the string. *)
Lemma trim_keeps pre w post :
  w <> [] -> Forall (fun x => isWhiteSpace x = false) w ->
  exists pre' post', trim (pre ++ w ++ post) = pre' ++ w ++ post'.
Proof.
  intros Hne Hw.
  destruct w as [|x a]; [congruence|].
  destruct (exists_last Hne) as (b & y & Eb).
  assert (Hx : isWhiteSpace x = false) by now inversion Hw.
  assert (Hy : isWhiteSpace y = false).
  { rewrite Eb in Hw. apply Forall_app in Hw as [_ Hw]. now inversion Hw. }
  unfold trim, trimEnd.
  destruct (trimStart_keeps pre x (a ++ post) Hx) as (pre' & E1).
  simpl. rewrite E1.
  change (pre' ++ x :: a ++ post) with (pre' ++ (x :: a) ++ post).
  rewrite Eb.
  replace (rev (pre' ++ (b ++ [y]) ++ post))
    with (rev post ++ y :: (rev b ++ rev pre')).
  2:{ rewrite !rev_app_distr. simpl. rewrite <- !app_assoc. reflexivity. }
  destruct (trimStart_keeps (rev post) y (rev b ++ rev pre') Hy) as (post' & E2).
  rewrite E2. exists pre', (rev post').
  rewrite rev_app_distr. simpl. rewrite rev_app_distr, !rev_involutive.
  change (x :: a ++ rev post') with ((x :: a) ++ rev post').
  rewrite Eb, <- !app_assoc. reflexivity.
Qed.

(** A character equal to a lower-case letter up to case is that letter or
    its capital. *)
Lemma eqIgnoreCase_letter x c :
  isLower c = true -> eqIgnoreCase x c = true -> x = c \/ x = c - 32.
Proof.
  unfold eqIgnoreCase, toLowerAscii, isLower, isUpper. intros Hc H.
  destruct ((65 <=? c) && (c <=? 90)) eqn:Ec;
    destruct ((65 <=? x) && (x <=? 90)) eqn:Ex; bools; lia.
Qed.

Lemma letter_charI x c :
  isLower c = true -> eqIgnoreCase x c = true ->
  RegExp.charI (c - 32) x = true.
Proof.
  intros Hc H. destruct (eqIgnoreCase_letter x c Hc H) as [-> | ->];
    unfold RegExp.charI, isLower, isUpper in *; bools.
  - replace ((65 <=? c - 32) && (c - 32 <=? 90)) with true.
    + replace (c - 32 + 32) with c by lia. rewrite N.eqb_refl. apply orb_true_r.
    + symmetry. apply andb_true_iff. split; apply N.leb_le; lia.
  - replace ((65 <=? c - 32) && (c - 32 <=? 90)) with true.
    + rewrite N.eqb_refl. reflexivity.
    + symmetry. apply andb_true_iff. split; apply N.leb_le; lia.
Qed.

Lemma letter_not_space x c :
  isLower c = true -> eqIgnoreCase x c = true -> isWhiteSpace x = false.
Proof.
  intros Hc H. unfold isLower in Hc. bools.
  assert (65 <= x <= 122) as Hr.
  { destruct (eqIgnoreCase_letter x c) as [-> | ->]; auto; try lia.
    unfold isLower. apply andb_true_iff. split; apply N.leb_le; lia. }
  unfold isWhiteSpace.
  repeat (apply orb_false_iff; split);
    try (apply N.eqb_neq; lia);
    apply andb_false_iff; [right | left]; apply N.leb_gt; lia.
Qed.

Lemma word_charI w ps :
  Forall (fun c => isLower c = true) ps ->
  Forall2 (fun x c => eqIgnoreCase x c = true) w ps ->
  Forall2 (fun x p => RegExp.charI p x = true) w (map (fun c => c - 32) ps).
Proof.
  intros Hps H. induction H as [|x c w ps Hx H IH]; simpl; constructor.
  - inversion Hps; subst. now apply letter_charI.
  - inversion Hps; subst. auto.
Qed.

Lemma word_not_space w ps :
  Forall (fun c => isLower c = true) ps ->
  Forall2 (fun x c => eqIgnoreCase x c = true) w ps ->
  Forall (fun x => isWhiteSpace x = false) w.
Proof.
  intros Hps H. induction H as [|x c w ps Hx H IH]; constructor.
  - inversion Hps; subst. now apply (letter_not_space x c).
  - inversion Hps; subst. auto.
Qed.

End StringFacts.

(** ** QueryValidator *)

Module ValidatorFacts.
Import RegExp RegExpFacts StringFacts.

Lemma checkPatterns_hit ps s :
  Exists (fun p => test p s = true) ps ->
  checkPatterns ps s = Thrown (mkError dangerousMessage).
Proof.
  induction 1 as [p ps Hp | p ps _ IH]; cbn [checkPatterns].
  - rewrite Hp. reflexivity.
  - rewrite IH. destruct (test p s); reflexivity.
Qed.

Lemma checkPatterns_miss ps s :
  Forall (fun p => test p s = false) ps -> checkPatterns ps s = Returned tt.
Proof.
  induction 1 as [|p ps Hp _ IH]; cbn [checkPatterns]; auto.
  rewrite Hp. exact IH.
Qed.

(** No deny-list pattern matches the empty string. *)
Lemma no_pattern_matches_empty :
  Forall (fun p => test p [] = false) DANGEROUS_PATTERNS.
Proof. repeat (constructor; [vm_compute; reflexivity|]). constructor. Qed.

Lemma validate_blank q :
  blank q = true -> validate (VStr q) = Thrown (mkError emptyMessage).
Proof. intros H. unfold validate. rewrite (trim_blank q H). reflexivity. Qed.

Lemma validate_denied q :
  Exists (fun p => Matches p (trim q)) DANGEROUS_PATTERNS ->
  validate (VStr q) = Thrown (mkError dangerousMessage).
Proof.
  intros H. unfold validate.
  assert (Ht : Exists (fun p => test p (trim q) = true) DANGEROUS_PATTERNS).
  { eapply Exists_impl; [|exact H]. intros p. apply test_spec. }
  destruct (trim q) as [|c t] eqn:E.
  - exfalso. apply Exists_exists in Ht as (p & Hin & Hp).
    pose proof no_pattern_matches_empty as Hn.
    rewrite Forall_forall in Hn. rewrite (Hn p Hin) in Hp. discriminate.
  - now apply checkPatterns_hit.
Qed.

(** Without a deny-list match, a query with something left after trimming
    passes. *)
Lemma validate_accepts q :
  blank q = false ->
  Forall (fun p => ~ Matches p (trim q)) DANGEROUS_PATTERNS ->
  trim q <> [] ->
  validate (VStr q) = Returned tt.
Proof.
  intros _ H Hne. unfold validate. destruct (trim q) as [|c t] eqn:E; [congruence|].
  apply checkPatterns_miss. eapply Forall_impl; [|exact H].
  intros p Hp. destruct (test p (c :: t)) eqn:Et; auto.
  exfalso. apply Hp. now apply test_spec.
Qed.

Lemma matchStar_to_end c k s :
  (forall r, k r = match r with [] => true | _ => false end) ->
  matchStar c k s = forallb c s.
Proof.
  intros Hk. induction s as [|x s IH]; cbn [matchStar forallb]; rewrite Hk.
  - reflexivity.
  - rewrite IH. reflexivity.
Qed.

Lemma test_TABLE_NAME s : test TABLE_NAME s = isIdentifier s.
Proof.
  destruct s as [|x s]; [reflexivity|].
  change (test TABLE_NAME (x :: s))
    with (isWordChar x && matchStar isWordChar (matchHere [] true) s).
  rewrite matchStar_to_end by reflexivity. reflexivity.
Qed.

Lemma sanitizeTableName_string s :
  sanitizeTableName (VStr s) =
  if isIdentifier s then Returned (VStr s)
  else Thrown (mkError invalidNameMessage).
Proof.
  unfold sanitizeTableName. cbn [ToString].
  rewrite test_TABLE_NAME. destruct (isIdentifier s); reflexivity.
Qed.

End ValidatorFacts.

(** C4, amended.  [sanitizeTableName] returns its argument itself, with
    no escaping, when the string is not empty and every character of it is
    a letter, a digit or an underscore; for every other string, the empty
    one included, it throws "Nome de tabela inválido". *)
Theorem sanitizeTableName_allow_or_reject (s : jsstr) :
  sanitizeTableName (VStr s) =
  if isIdentifier s then Returned (VStr s)
  else Thrown (mkError invalidNameMessage).
Proof.
  unfold sanitizeTableName. cbn [ToString].
  rewrite ValidatorFacts.test_TABLE_NAME.
  destruct s as [|c s]; [reflexivity|].
  destruct (isIdentifier (c :: s)); reflexivity.
Qed.

(** C4, as stated, fails at the empty string: every character of it is a
    word character, and it is rejected all the same. *)
Lemma sanitizeTableName_rejects_empty :
  forallb isWordChar [] = true
  /\ sanitizeTableName (VStr []) = Thrown (mkError invalidNameMessage).
Proof. split; vm_compute; reflexivity. Qed.

(** C9.  A query that contains "truncate" anywhere, in any letter case, is
    rejected by [validate] with the dangerous-operation error, whatever the
    rest of the statement is. *)
Theorem truncate_anywhere_is_rejected (q : jsstr) :
  containsIgnoreCase (lit "truncate") q ->
  validate (VStr q) = Thrown (mkError dangerousMessage).
Proof.
  intros (pre & w & post & -> & Hw).
  assert (Hl : Forall (fun c => isLower c = true) (lit "truncate"))
    by (vm_compute; repeat constructor).
  assert (Hne : w <> []) by (intros ->; inversion Hw).
  destruct (StringFacts.trim_keeps pre w post Hne
              (StringFacts.word_not_space w _ Hl Hw)) as (pre' & post' & E).
  apply ValidatorFacts.validate_denied. rewrite E.
  do 3 apply Exists_cons_tl. apply Exists_cons_hd.
  exists pre', w, post'. repeat split; try discriminate.
  apply (RegExpFacts.Lang_litI_chars (lit "TRUNCATE")).
  exact (StringFacts.word_charI w _ Hl Hw).
Qed.

(** A read-only statement that calls MySQL's numeric function. *)
Lemma truncate_function_call_is_rejected :
  validate (VStr (lit "SELECT TRUNCATE(12.345, 1)"))
  = Thrown (mkError dangerousMessage).
Proof.
  apply truncate_anywhere_is_rejected.
  exists (lit "SELECT "), (lit "TRUNCATE"), (lit "(12.345, 1)").
  split; [vm_compute; reflexivity | vm_compute; repeat constructor].
Defined.

(** ** The handlers *)

Lemma message_mkError m : message (mkError m) = m.
Proof. reflexivity. Qed.

Lemma streq_refl a : streq a a = true.
Proof. unfold streq. destruct (list_eq_dec N.eq_dec a a); congruence. Qed.

Lemma streq_neq a b : a <> b -> streq a b = false.
Proof. unfold streq. destruct (list_eq_dec N.eq_dec a b); congruence. Qed.

Lemma streq_eq a b : streq a b = true -> a = b.
Proof. unfold streq. destruct (list_eq_dec N.eq_dec a b); congruence. Qed.

Section HandlerFacts.

Variable drv : Driver.
Variable config : MySQLConfig.

(** **** DatabaseConnection *)

Lemma connect_when_connected w h :
  connection w = Some h -> connect drv config w = (Returned tt, w).
Proof. intros H. unfold connect. rewrite H. reflexivity. Qed.

Lemma connect_returns w w1 :
  connect drv config w = (Returned tt, w1) ->
  (exists h, connection w1 = Some h)
  /\ sent w1 = sent w
  /\ live w1 = (if isConnected drv w then live w else S (live w)).
Proof.
  unfold connect, isConnected. destruct (connection w) as [h|] eqn:E.
  - intros [= <-]. rewrite E. eauto.
  - destruct (createConnection drv config (server w)) as [[h|e] sv];
      intros [= <-]; cbn; eauto.
Qed.

Lemma connect_sent w : sent (snd (connect drv config w)) = sent w.
Proof.
  unfold connect. destruct (connection w); [reflexivity|].
  destruct (createConnection drv config (server w)) as [[h|e] sv]; reflexivity.
Qed.

Lemma ensureConnection_when_connected w h :
  connection w = Some h -> ensureConnection drv config w = (Returned tt, w).
Proof. intros H. unfold ensureConnection, isConnected. rewrite H. reflexivity. Qed.

Lemma ensureConnection_sent w :
  sent (snd (ensureConnection drv config w)) = sent w.
Proof.
  unfold ensureConnection. destruct (isConnected drv w); cbn [negb];
    [reflexivity | apply connect_sent].
Qed.

Lemma ensureConnection_fails w e sv :
  connection w = None ->
  createConnection drv config (server w) = (Thrown e, sv) ->
  ensureConnection drv config w
  = (Thrown (mkError (lit "Falha na conexão: " ++ message e)),
     Build_World drv sv None (sent w) (live w)).
Proof.
  intros Hc He. unfold ensureConnection, isConnected, connect.
  rewrite Hc. cbn [negb]. rewrite He. reflexivity.
Qed.

Lemma execute_when_connected w h q :
  connection w = Some h ->
  execute drv q w
  = (fst (conn_execute drv h q (server w)),
     Build_World drv (snd (conn_execute drv h q (server w))) (Some h)
                 (sent w ++ [q]) (live w)).
Proof.
  intros H. unfold execute. rewrite H.
  destruct (conn_execute drv h q (server w)); reflexivity.
Qed.

(** **** ToolsHandler: the two operations always return an envelope *)

Lemma executeQuery_returns query database w :
  exists r w', executeQuery drv query database w = (Returned r, w').
Proof.
  unfold executeQuery, tryCatch.
  match goal with |- context [match ?m w with _ => _ end] =>
    destruct (m w) as [[r|e] w'] end; unfold ret; eauto.
Qed.

Lemma describeTable_returns tableName database w :
  exists r w', describeTable drv tableName database w = (Returned r, w').
Proof.
  unfold describeTable, tryCatch.
  match goal with |- context [match ?m w with _ => _ end] =>
    destruct (m w) as [[r|e] w'] end; unfold ret; eauto.
Qed.

Lemma executeQuery_validation_fails query database w e :
  validate query = Thrown e ->
  executeQuery drv query database w = (Returned (error (message e)), w).
Proof.
  intros H. unfold executeQuery, tryCatch, bind, lift. rewrite H. reflexivity.
Qed.



(** **** The call-tool handler *)


Lemma callTool_connection_failure name args w e sv :
  connection w = None ->
  createConnection drv config (server w) = (Thrown e, sv) ->
  callTool drv config name args w
  = (Returned (error (lit "Erro ao executar " ++ name ++ lit ": "
                      ++ (lit "Falha na conexão: " ++ message e))),
     Build_World drv sv None (sent w) (live w)).
Proof.
  intros Hc He. unfold callTool, tryCatch, bind.
  rewrite (ensureConnection_fails w e sv Hc He). reflexivity.
Qed.


Lemma callTool_execute_query args w w1 :
  ensureConnection drv config w = (Returned tt, w1) ->
  callTool drv config (lit "execute_query") args w
  = executeQuery drv (optProp args (lit "query"))
                     (optProp args (lit "database")) w1.
Proof.
  intros He. unfold callTool, tryCatch, bind. rewrite He, streq_refl.
  destruct (executeQuery_returns (optProp args (lit "query"))
              (optProp args (lit "database")) w1) as (r & w' & ->).
  reflexivity.
Qed.

Lemma callTool_describe_table args w w1 :
  ensureConnection drv config w = (Returned tt, w1) ->
  callTool drv config (lit "describe_table") args w
  = describeTable drv (optProp args (lit "table_name"))
                      (optProp args (lit "database")) w1.
Proof.
  intros He. unfold callTool, tryCatch, bind. rewrite He.
  replace (streq (lit "describe_table") (lit "execute_query")) with false
    by (vm_compute; reflexivity).
  rewrite streq_refl.
  destruct (describeTable_returns (optProp args (lit "table_name"))
              (optProp args (lit "database")) w1) as (r & w' & ->).
  reflexivity.
Qed.

(** **** The read-resource handler *)




End HandlerFacts.

(** ** The router and the handlers: main results *)



(** C2.  The database name goes into the [USE] statement as it is given:
    a name with characters outside [[A-Za-z0-9_]] is interpolated and sent
    by [executeQuery] and by [describeTable], ahead of their own statement. *)
Theorem database_name_is_interpolated_unchecked :
  isIdentifier (lit "shop`; DROP DATABASE `shop") = false
  /\ sent (snd (executeQuery Sample.driver (VStr (lit "SELECT 1"))
                  (VStr (lit "shop`; DROP DATABASE `shop"))
                  (Sample.connected Sample.shop)))
     = [ lit "USE `shop`; DROP DATABASE `shop`"; lit "SELECT 1" ]
  /\ sent (snd (describeTable Sample.driver (VStr (lit "users"))
                  (VStr (lit "shop`; DROP DATABASE `shop"))
                  (Sample.connected Sample.shop)))
     = [ lit "USE `shop`; DROP DATABASE `shop`"; lit "DESCRIBE `users`" ].
Proof. repeat split; vm_compute; reflexivity. Qed.

(** Whatever the name, [useDatabase] on a live connection sends it. *)
Lemma useDatabase_sends_any_name (drv : Driver) (database : jsval)
  (w : World drv) (h : Handle drv) :
  connection w = Some h ->
  sent (snd (useDatabase drv database w)) = sent w ++ [useStatement database].
Proof.
  intros Hc. unfold useDatabase, bind.
  rewrite (execute_when_connected drv w h _ Hc).
  destruct (fst (conn_execute drv h (useStatement database) (server w)));
    reflexivity.
Qed.

(** The table name, on the other hand, is checked before anything is
    built: for a name that is empty or holds a character outside
    [[A-Za-z0-9_]], [describeTable] returns the invalid-name envelope and
    leaves the world as it was, with no statement sent. *)
Lemma describeTable_bad_name_sends_nothing (drv : Driver) (s : jsstr)
  (database : jsval) (w : World drv) :
  isIdentifier s = false ->
  describeTable drv (VStr s) database w
  = (Returned (error invalidNameMessage), w).
Proof.
  intros H. unfold describeTable, tryCatch, bind, lift.
  rewrite ValidatorFacts.sanitizeTableName_string, H. reflexivity.
Qed.

(** C3.  A query that is blank, or whose trimmed text matches one of the
    four deny-list patterns, makes [executeQuery] return an error envelope
    and leave the world as it was: neither the [USE] statement nor the
    query is sent.  Through the call-tool handler the answer is an error
    envelope too, and the list of statements sent does not grow. *)
Theorem denied_or_blank_query_reaches_no_database
  (drv : Driver) (config : MySQLConfig) (q : jsstr) (database : jsval)
  (w : World drv) :
  blank q = true
  \/ Exists (fun p => RegExp.Matches p (trim q)) DANGEROUS_PATTERNS ->
  validate (VStr q)
  = Thrown (mkError (if blank q then emptyMessage else dangerousMessage))
  /\ executeQuery drv (VStr q) database w
     = (Returned (error (if blank q then emptyMessage else dangerousMessage)), w)
  /\ (forall args,
         optProp args (lit "query") = VStr q ->
         exists m w',
           handle drv config (CallTool (lit "execute_query") args) w
           = (Returned (ToolResponse (error m)), w')
           /\ sent w' = sent w).
Proof.
  intros H.
  assert (Hv : validate (VStr q)
               = Thrown (mkError (if blank q then emptyMessage
                                  else dangerousMessage))).
  { destruct H as [H|H].
    - rewrite H. now apply ValidatorFacts.validate_blank.
    - rewrite (ValidatorFacts.validate_denied q H).
      destruct (blank q) eqn:Eb; [|reflexivity].
      exfalso. rewrite (StringFacts.trim_blank q Eb) in H.
      apply Exists_exists in H as (p & Hin & Hp).
      apply RegExpFacts.test_spec in Hp.
      pose proof ValidatorFacts.no_pattern_matches_empty as Hn.
      rewrite Forall_forall in Hn. rewrite (Hn p Hin) in Hp. discriminate. }
  split; [exact Hv|]. split.
  - rewrite (executeQuery_validation_fails drv _ database w _ Hv).
    destruct (blank q); reflexivity.
  - intros args Hq. cbn [handle]. unfold bind.
    destruct (ensureConnection drv config w) as [[[]|e] w1] eqn:Ee.
    + rewrite (callTool_execute_query drv config args w w1 Ee), Hq.
      rewrite (executeQuery_validation_fails drv _ _ w1 _ Hv).
      unfold ret. eexists _, w1. split; [reflexivity|].
      pose proof (ensureConnection_sent drv config w) as Hs.
      rewrite Ee in Hs. exact Hs.
    + unfold callTool, tryCatch, bind. rewrite Ee. unfold ret.
      eexists _, w1. split; [reflexivity|].
      pose proof (ensureConnection_sent drv config w) as Hs.
      rewrite Ee in Hs. exact Hs.
Qed.

Lemma drop_table_reaches_no_database :
  validate (VStr (lit "  drop   TABLE users "))
  = Thrown (mkError dangerousMessage)
  /\ executeQuery Sample.driver (VStr (lit "  drop   TABLE users "))
       (VStr (lit "shop")) (Sample.connected Sample.shop)
     = (Returned (error dangerousMessage), Sample.connected Sample.shop).
Proof.
  assert (H : blank (lit "  drop   TABLE users ") = true
              \/ Exists (fun p => RegExp.Matches p (trim (lit "  drop   TABLE users ")))
                        DANGEROUS_PATTERNS).
  { right. apply Exists_cons_tl, Exists_cons_hd.
    exists [], (lit "drop   TABLE"), (lit " users").
    split; [vm_compute; reflexivity|].
    split; [|split; discriminate].
    vm_compute.
    repeat first
      [ apply RegExp.Lang_nil
      | apply RegExp.Lang_once; [reflexivity|]
      | apply RegExp.Lang_plus; [reflexivity|]
      | apply RegExp.Lang_star_step; [reflexivity|]
      | apply RegExp.Lang_star_stop ]. }
  assert (B : blank (lit "  drop   TABLE users ") = false)
    by (vm_compute; reflexivity).
  destruct (denied_or_blank_query_reaches_no_database Sample.driver
              Sample.config (lit "  drop   TABLE users ") (VStr (lit "shop"))
              (Sample.connected Sample.shop) H) as (H1 & H2 & _).
  rewrite B in H1, H2. exact (conj H1 H2).
Defined.

(** C6.  [connect] is idempotent.  On a live connection it returns at once
    and changes nothing.  So when a first call has returned, a second call
    returns too, without an error and in the same state: no second
    connection is created, and where at most one connection was live
    before, exactly one is live after the two calls. *)
Theorem connect_is_idempotent
  (drv : Driver) (config : MySQLConfig) (w w1 : World drv) :
  live w = (if isConnected drv w then 1 else 0)%nat ->
  connect drv config w = (Returned tt, w1) ->
  connect drv config w1 = (Returned tt, w1)
  /\ (_ <- connect drv config ;; connect drv config) w = (Returned tt, w1)
  /\ isConnected drv w1 = true
  /\ live w1 = 1%nat
  /\ (isConnected drv w = true -> w1 = w).
Proof.
  intros Hl H1.
  destruct (connect_returns drv config w w1 H1) as ((h & Hc) & _ & Hlive).
  pose proof (connect_when_connected drv config w1 h Hc) as H2.
  repeat split.
  - exact H2.
  - unfold bind. rewrite H1. exact H2.
  - unfold isConnected. now rewrite Hc.
  - rewrite Hlive, Hl. now destruct (isConnected drv w).
  - unfold isConnected. destruct (connection w) as [h0|] eqn:E; [|discriminate].
    intros _. rewrite (connect_when_connected drv config w h0 E) in H1.
    congruence.
Qed.

Lemma connect_twice_on_the_sample :
  connect Sample.driver Sample.config (Sample.connected Sample.shop)
  = (Returned tt, Sample.connected Sample.shop)
  /\ (_ <- connect Sample.driver Sample.config ;;
      connect Sample.driver Sample.config) (Sample.fresh Sample.shop)
     = (Returned tt, Sample.connected Sample.shop)
  /\ live (Sample.connected Sample.shop) = 1%nat.
Proof.
  destruct (connect_is_idempotent Sample.driver Sample.config
              (Sample.fresh Sample.shop) (Sample.connected Sample.shop)
              eq_refl eq_refl) as (H1 & H2 & _ & H3 & _).
  exact (conj H1 (conj H2 H3)).
Defined.

(** C7.  A prompt that is not in the catalogue, and [analyze_table]
    without a [table_name], make [getPrompt] throw; the get-prompt handler
    has no [try], so the exception leaves it as it is, with the world
    untouched. *)
Theorem prompt_failures_leave_the_handler
  (drv : Driver) (config : MySQLConfig) (name : jsstr) (args : option object)
  (w : World drv) :
  (name <> lit "analyze_table" /\ name <> lit "find_large_tables"
   /\ name <> lit "database_overview")
  \/ (name = lit "analyze_table"
      /\ optProp args (lit "table_name") = VUndefined) ->
  getPrompt name args
  = Thrown (mkError (if streq name (lit "analyze_table")
                     then lit "table_name é obrigatório"
                     else lit "Prompt não encontrado: " ++ name))
  /\ handle drv config (GetPrompt name args) w
     = (Thrown (mkError (if streq name (lit "analyze_table")
                         then lit "table_name é obrigatório"
                         else lit "Prompt não encontrado: " ++ name)), w).
Proof.
  intros H.
  assert (Hg : getPrompt name args
               = Thrown (mkError (if streq name (lit "analyze_table")
                                  then lit "table_name é obrigatório"
                                  else lit "Prompt não encontrado: " ++ name))).
  { unfold getPrompt. destruct H as [(H1 & H2 & H3) | (-> & Ha)].
    - rewrite (streq_neq _ _ H1), (streq_neq _ _ H2), (streq_neq _ _ H3).
      reflexivity.
    - rewrite streq_refl, Ha. reflexivity. }
  split; [exact Hg|].
  cbn [handle]. unfold bind, lift. rewrite Hg. reflexivity.
Qed.

Lemma unknown_prompt_and_missing_argument :
  handle Sample.driver Sample.config (GetPrompt (lit "summarize") None)
    (Sample.fresh Sample.shop)
  = (Thrown (mkError (lit "Prompt não encontrado: " ++ lit "summarize")),
     Sample.fresh Sample.shop)
  /\ handle Sample.driver Sample.config
       (GetPrompt (lit "analyze_table") (Some [])) (Sample.fresh Sample.shop)
     = (Thrown (mkError (lit "table_name é obrigatório")),
        Sample.fresh Sample.shop).
Proof.
  assert (N1 : lit "summarize" <> lit "analyze_table")
    by (vm_compute; discriminate).
  assert (N2 : lit "summarize" <> lit "find_large_tables")
    by (vm_compute; discriminate).
  assert (N3 : lit "summarize" <> lit "database_overview")
    by (vm_compute; discriminate).
  assert (A : optProp (Some []) (lit "table_name") = VUndefined)
    by (vm_compute; reflexivity).
  split.
  - pose proof (proj2 (prompt_failures_leave_the_handler Sample.driver
                  Sample.config (lit "summarize") None (Sample.fresh Sample.shop)
                  (or_introl (conj N1 (conj N2 N3))))) as H.
    rewrite (streq_neq _ _ N1) in H. exact H.
  - pose proof (proj2 (prompt_failures_leave_the_handler Sample.driver
                  Sample.config (lit "analyze_table") (Some [])
                  (Sample.fresh Sample.shop)
                  (or_intror (conj eq_refl A)))) as H.
    rewrite streq_refl in H. exact H.
Defined.

(** C8.  Listing the prompts and getting a prompt never touch the world:
    no connection is made, nothing is sent, the connection field keeps its
    value, and the outcome is the same in every state of the world. *)
Theorem prompt_requests_leave_the_connection_alone
  (drv : Driver) (config : MySQLConfig) (req : Request) (w : World drv) :
  isPromptRequest req = true ->
  snd (handle drv config req w) = w
  /\ (forall w', fst (handle drv config req w') = fst (handle drv config req w)).
Proof.
  destruct req as [| name args | | uri | | name args]; try discriminate; intros _.
  - split; reflexivity.
  - cbn [handle]. unfold bind, lift.
    destruct (getPrompt name args) as [r|e]; split; reflexivity.
Qed.

Lemma prompt_requests_on_the_sample :
  snd (handle Sample.driver Sample.config
         (GetPrompt (lit "analyze_table")
            (Some [ (lit "table_name", VStr (lit "users")) ]))
         (Sample.fresh Sample.unreachable))
  = Sample.fresh Sample.unreachable
  /\ fst (handle Sample.driver Sample.config ListPrompts
            (Sample.connected Sample.shop))
     = fst (handle Sample.driver Sample.config ListPrompts
              (Sample.fresh Sample.unreachable)).
Proof.
  split.
  - exact (proj1 (prompt_requests_leave_the_connection_alone Sample.driver
                    Sample.config (GetPrompt (lit "analyze_table")
                      (Some [ (lit "table_name", VStr (lit "users")) ]))
                    (Sample.fresh Sample.unreachable) eq_refl)).
  - exact (proj2 (prompt_requests_leave_the_connection_alone Sample.driver
                    Sample.config ListPrompts (Sample.fresh Sample.unreachable)
                    eq_refl) (Sample.connected Sample.shop)).
Defined.

(** C10.  [analyze_table] tests its argument by truth value: an empty
    [table_name] is answered like a missing one, with the same
    "table_name é obrigatório" error. *)
Theorem empty_table_name_counts_as_missing (args : option object) :
  optProp args (lit "table_name") = VStr [] ->
  getPrompt (lit "analyze_table") args
  = Thrown (mkError (lit "table_name é obrigatório"))
  /\ getPrompt (lit "analyze_table") args = getPrompt (lit "analyze_table") None.
Proof.
  intros H.
  assert (Hn : getPrompt (lit "analyze_table") None
               = Thrown (mkError (lit "table_name é obrigatório"))).
  { unfold getPrompt. rewrite streq_refl. reflexivity. }
  assert (Ha : getPrompt (lit "analyze_table") args
               = Thrown (mkError (lit "table_name é obrigatório"))).
  { unfold getPrompt. rewrite streq_refl, H. reflexivity. }
  split; [exact Ha | now rewrite Ha, Hn].
Qed.

Lemma empty_table_name_on_the_sample :
  getPrompt (lit "analyze_table") (Some [ (lit "table_name", VStr []) ])
  = Thrown (mkError (lit "table_name é obrigatório")).
Proof.
  assert (A : optProp (Some [ (lit "table_name", VStr []) ]) (lit "table_name")
              = VStr []) by (vm_compute; reflexivity).
  exact (proj1 (empty_table_name_counts_as_missing
                  (Some [ (lit "table_name", VStr []) ]) A)).
Defined.

(** ** The schema snapshot *)

Section SchemaFacts.

Variable drv : Driver.
Variable h : Handle drv.
Variable sv : Server drv.
Hypothesis fixed : heldFixed drv h sv.

Lemma describeAll_entries tables :
  forall acc w res w',
    connection w = Some h -> server w = sv ->
    describeAll drv tables acc w = (Returned res, w') ->
    exists entries,
      res = acc ++ map (fun e => tableEntry (fst e) (snd e)) entries
      /\ Forall2 (fun row e => firstValue row = Returned (fst e)) tables entries
      /\ Forall (described drv h sv) entries.
Proof.
  induction tables as [|table rest IH]; intros acc w res w' Hc Hs H.
  - cbn [describeAll] in H. unfold ret in H. injection H as <- _.
    exists []. cbn [map]. rewrite app_nil_r. repeat split; constructor.
  - cbn [describeAll] in H. unfold bind at 1, lift in H.
    destruct (firstValue table) as [tableName|e] eqn:Ef; [|discriminate].
    unfold bind at 1 in H.
    rewrite (execute_when_connected drv w h _ Hc), Hs in H.
    destruct fixed as [_ Hd]. rewrite (Hd tableName) in H.
    destruct (fst (conn_execute drv h (describeStatement tableName) sv))
      as [columns|e] eqn:Ex; [|discriminate].
    apply IH in H; [|reflexivity|reflexivity].
    destruct H as (entries & -> & HF & HD).
    exists ((tableName, rowsVal columns) :: entries). repeat split.
    + cbn [map fst snd]. rewrite <- app_assoc. reflexivity.
    + constructor; [exact Ef | exact HF].
    + constructor; [|exact HD]. exists columns. split; [exact Ex | reflexivity].
Qed.

Lemma describeTable_described w e :
  connection w = Some h -> server w = sv ->
  described drv h sv e ->
  isIdentifier (ToString (fst e)) = true ->
  fst (describeTable drv (fst e) VUndefined w)
  = Returned (tableStructure drv (fst e) (snd e)).
Proof.
  intros Hc Hs (r & Hr & ->) Hid.
  unfold describeTable, tryCatch, bind, lift, sanitizeTableName.
  rewrite ValidatorFacts.test_TABLE_NAME, Hid. cbn [negb truthy]. unfold ret at 1.
  rewrite (execute_when_connected drv w h _ Hc), Hs, Hr. reflexivity.
Qed.

Lemma getTables_rows w rows :
  connection w = Some h -> server w = sv ->
  fst (conn_execute drv h showTables sv) = Returned (Rows rows) ->
  fst (getTables drv w) = Returned (tablesResource drv rows).
Proof.
  intros Hc Hs Hr. unfold getTables, bind.
  rewrite (execute_when_connected drv w h _ Hc), Hs, Hr. reflexivity.
Qed.

End SchemaFacts.

(** C5, amended.  With the state behind the driver held fixed, whenever
    [getSchema] returns, the names of its entries are the table names of
    the rows [getTables] returns, in the same order, and every entry whose
    name is made of letters, digits and underscores holds the column rows
    that [describeTable] returns for that name.  (For any other name
    [describeTable] returns the invalid-name error instead.) *)
Theorem schema_agrees_with_tables_and_valid_descriptions
  (drv : Driver) (w : World drv) (h : Handle drv) (out : ReadResourceResult) :
  connection w = Some h ->
  heldFixed drv h (server w) ->
  fst (getSchema drv w) = Returned out ->
  schemaRoundTrip drv w out.
Proof.
  intros Hc Hf H. unfold getSchema, bind at 1 in H.
  rewrite (execute_when_connected drv w h _ Hc) in H.
  destruct (fst (conn_execute drv h showTables (server w)))
    as [[rows|hd]|e] eqn:Er; [| discriminate | discriminate].
  unfold bind in H.
  match type of H with context [describeAll drv rows [] ?w0] =>
    destruct (describeAll drv rows [] w0) as [[res|e] w1] eqn:Ed end;
    [|discriminate].
  apply (describeAll_entries drv h (server w) Hf) in Ed;
    [| reflexivity | exact (proj1 Hf)].
  destruct Ed as (entries & -> & HF & HD).
  unfold ret in H. cbn [fst] in H. injection H as <-.
  exists rows, entries. repeat split.
  - now apply (getTables_rows drv h (server w)).
  - exact HF.
  - rewrite Forall_forall in HD |- *. intros e He Hid.
    now apply (describeTable_described drv h (server w)); auto.
Qed.

(** The sample shop, where both names are plain. *)
Lemma sample_schema_round_trip :
  schemaRoundTrip Sample.driver (Sample.connected Sample.shop)
    (schemaResource Sample.driver
       [ (VStr (lit "users"), VArr Sample.users_columns);
         (VStr (lit "orders"), VArr Sample.order_items_columns) ]).
Proof.
  apply (schema_agrees_with_tables_and_valid_descriptions Sample.driver
           (Sample.connected Sample.shop) tt).
  - reflexivity.
  - split; [reflexivity | intros tableName; reflexivity].
  - vm_compute. reflexivity.
Defined.

(** C5, as stated, fails where a table name needs its back quotes:
    [getSchema] lists the table "order-items" with its columns, after the
    table names of [getTables], and [describeTable] answers the same name
    with the invalid-name error, which is no table structure at all. *)
Lemma dashed_table_breaks_the_round_trip :
  fst (getTables Sample.driver (Sample.connected Sample.shop_dashed))
  = Returned (tablesResource Sample.driver
      [ VObj [ (lit "Tables_in_shop", VStr (lit "users")) ];
        VObj [ (lit "Tables_in_shop", VStr (lit "order-items")) ] ])
  /\ fst (getSchema Sample.driver (Sample.connected Sample.shop_dashed))
     = Returned (schemaResource Sample.driver
         [ (VStr (lit "users"), VArr Sample.users_columns);
           (VStr (lit "order-items"), VArr Sample.order_items_columns) ])
  /\ fst (describeTable Sample.driver (VStr (lit "order-items")) VUndefined
            (Sample.connected Sample.shop_dashed))
     = Returned (error invalidNameMessage)
  /\ (forall columns,
         error invalidNameMessage
         <> tableStructure Sample.driver (VStr (lit "order-items")) columns).
Proof.
  repeat split; try (vm_compute; reflexivity).
  intros columns H. unfold error, tableStructure, success in H.
  injection H as H. discriminate H.
Qed.

(** ** Further properties of the handlers *)

Lemma dashed_name_sends_nothing :
  describeTable Sample.driver (VStr (lit "orders;DROP")) (VStr (lit "shop"))
    (Sample.connected Sample.shop)
  = (Returned (error invalidNameMessage), Sample.connected Sample.shop).
Proof.
  apply describeTable_bad_name_sends_nothing. vm_compute. reflexivity.
Defined.

(** A query that passes the guard, with no database given, on a live
    connection: the statement sent is the query as it was given, and the
    answer is the query-result envelope over the rows of the driver. *)
Theorem executeQuery_success
  (drv : Driver) (q : jsstr) (database : jsval) (w : World drv)
  (h : Handle drv) (rows : QueryResult) (sv : Server drv) :
  validate (VStr q) = Returned tt ->
  truthy database = false ->
  connection w = Some h ->
  conn_execute drv h q (server w) = (Returned rows, sv) ->
  executeQuery drv (VStr q) database w
  = (Returned (queryResult drv (VStr q) (rowsVal rows)),
     Build_World drv sv (Some h) (sent w ++ [q]) (live w)).
Proof.
  intros Hv Hd Hc He.
  unfold executeQuery, tryCatch, bind, lift. rewrite Hv, Hd. unfold ret at 1.
  cbn [ToString]. rewrite (execute_when_connected drv w h q Hc), He.
  reflexivity.
Qed.

Lemma select_one_on_the_sample :
  executeQuery Sample.driver (VStr (lit "SELECT 1")) VUndefined
    (Sample.connected Sample.shop)
  = (Returned (queryResult Sample.driver (VStr (lit "SELECT 1")) (VArr [])),
     Build_World Sample.driver Sample.shop (Some tt) ([] ++ [lit "SELECT 1"]) 1).
Proof.
  apply (executeQuery_success Sample.driver (lit "SELECT 1") VUndefined
           (Sample.connected Sample.shop) tt (Rows []) Sample.shop).
  - vm_compute. reflexivity.
  - reflexivity.
  - reflexivity.
  - vm_compute. reflexivity.
Defined.

(** [close] is idempotent: without a connection it returns and changes
    nothing, and after a [close] that returned there is no connection, so
    a second [close] is the first case. *)
Theorem close_is_idempotent (drv : Driver) (w : World drv) :
  (connection w = None -> close drv w = (Returned tt, w))
  /\ (forall w1,
         close drv w = (Returned tt, w1) ->
         connection w1 = None /\ close drv w1 = (Returned tt, w1)).
Proof.
  assert (H0 : forall v : World drv,
             connection v = None -> close drv v = (Returned tt, v)).
  { intros v Hv. unfold close. rewrite Hv. reflexivity. }
  split; [apply H0|].
  intros w1 H.
  assert (Hc : connection w1 = None).
  { unfold close in H. destruct (connection w) as [h|] eqn:E.
    - destruct (conn_end drv h (server w)) as [[[]|e] sv]; [|discriminate].
      injection H as <-. reflexivity.
    - injection H as <-. exact E. }
  split; [exact Hc | exact (H0 w1 Hc)].
Qed.

(** A failed connection attempt is answered by an error envelope that
    names the tool, and leaves the server disconnected, with nothing sent
    and no live connection more than before. *)
Theorem failed_connect_stays_disconnected
  (drv : Driver) (config : MySQLConfig) (name : jsstr) (args : option object)
  (w : World drv) (e : JsError) (sv : Server drv) :
  connection w = None ->
  createConnection drv config (server w) = (Thrown e, sv) ->
  exists w',
    handle drv config (CallTool name args) w
    = (Returned (ToolResponse
         (error (lit "Erro ao executar " ++ name ++ lit ": "
                 ++ (lit "Falha na conexão: " ++ message e)))), w')
    /\ connection w' = None /\ sent w' = sent w /\ live w' = live w.
Proof.
  intros Hc He. cbn [handle]. unfold bind.
  rewrite (callTool_connection_failure drv config name args w e sv Hc He).
  eexists. split; [reflexivity|]. repeat split.
Qed.

Lemma unreachable_server_on_the_sample :
  exists w',
    handle Sample.driver Sample.config (CallTool (lit "execute_query") None)
      (Sample.fresh Sample.unreachable)
    = (Returned (ToolResponse
         (error (lit "Erro ao executar " ++ lit "execute_query" ++ lit ": "
                 ++ (lit "Falha na conexão: "
                     ++ lit "connect ECONNREFUSED 127.0.0.1:3306")))), w')
    /\ connection w' = None
    /\ sent w' = sent (Sample.fresh Sample.unreachable)
    /\ live w' = live (Sample.fresh Sample.unreachable).
Proof.
  assert (E : createConnection Sample.driver Sample.config
                (server (Sample.fresh Sample.unreachable))
              = (Thrown (mkError (lit "connect ECONNREFUSED 127.0.0.1:3306")),
                 Sample.unreachable)) by reflexivity.
  pose proof (failed_connect_stays_disconnected Sample.driver Sample.config
                (lit "execute_query") None (Sample.fresh Sample.unreachable)
                _ _ eq_refl E) as H.
  rewrite message_mkError in H. exact H.
Defined.

(** ** The query guard, further *)

Module GuardFacts.
Import RegExp RegExpFacts StringFacts ValidatorFacts.

Lemma blank_app a b : blank (a ++ b) = blank a && blank b.
Proof. unfold blank. apply forallb_app. Qed.

Lemma blank_rev s : blank (rev s) = blank s.
Proof.
  induction s as [|c s IH]; [reflexivity|].
  cbn [rev]. rewrite blank_app, IH. unfold blank. cbn [forallb].
  rewrite andb_true_r. apply andb_comm.
Qed.

Lemma trimStart_head s c t : trimStart s = c :: t -> isWhiteSpace c = false.
Proof.
  induction s as [|x s IH]; cbn [trimStart]; [discriminate|].
  destruct (isWhiteSpace x) eqn:E; [exact IH|].
  intros [= <- _]. exact E.
Qed.

Lemma trimStart_nil s : trimStart s = [] -> blank s = true.
Proof.
  induction s as [|x s IH]; cbn [trimStart]; [reflexivity|].
  destruct (isWhiteSpace x) eqn:E; [|discriminate].
  intros H. unfold blank. cbn [forallb]. rewrite E. exact (IH H).
Qed.

Lemma trimStart_split s : exists a, s = a ++ trimStart s /\ blank a = true.
Proof.
  induction s as [|x s (a & Ha & Hb)]; [exists []; auto|].
  cbn [trimStart]. destruct (isWhiteSpace x) eqn:E.
  - exists (x :: a). split; [cbn [app]; congruence|].
    unfold blank in *. cbn [forallb]. now rewrite E.
  - exists []. auto.
Qed.

Lemma trimStart_blank_prefix a s : blank a = true -> trimStart (a ++ s) = trimStart s.
Proof.
  induction a as [|x a IH]; [reflexivity|].
  unfold blank. cbn [forallb app trimStart]. intros H.
  apply andb_true_iff in H as [Hx Ha]. rewrite Hx. exact (IH Ha).
Qed.

Lemma trimStart_app_solid s b :
  blank s = false -> trimStart (s ++ b) = trimStart s ++ b.
Proof.
  induction s as [|x s IH]; [discriminate|].
  unfold blank. cbn [forallb app trimStart].
  destruct (isWhiteSpace x); [exact IH | reflexivity].
Qed.

Lemma trimEnd_blank_suffix s b : blank b = true -> trimEnd (s ++ b) = trimEnd s.
Proof.
  intros H. unfold trimEnd. rewrite rev_app_distr.
  rewrite trimStart_blank_prefix; [reflexivity | now rewrite blank_rev].
Qed.

Lemma trimEnd_split s : exists b, s = trimEnd s ++ b /\ blank b = true.
Proof.
  unfold trimEnd. destruct (trimStart_split (rev s)) as (a & Ha & Hb).
  exists (rev a). split; [|now rewrite blank_rev].
  rewrite <- rev_app_distr, <- Ha. symmetry. apply rev_involutive.
Qed.

(** The trimmed text is a substring of the text, between two stretches
    of white space. *)
Lemma trim_split s :
  exists a b, s = a ++ trim s ++ b /\ blank a = true /\ blank b = true.
Proof.
  destruct (trimStart_split s) as (a & Ha & Hb).
  destruct (trimEnd_split (trimStart s)) as (b & Hc & Hd).
  exists a, b. unfold trim. rewrite <- Hc. auto.
Qed.

Lemma trim_nil_iff s : trim s = [] <-> blank s = true.
Proof.
  split; [|apply trim_blank].
  intros H. destruct (trim_split s) as (a & b & E & Ha & Hb).
  rewrite H in E. rewrite E, blank_app, Ha. exact Hb.
Qed.

(** White space around a text does not change what is left of it. *)
Lemma trim_padding a s b :
  blank a = true -> blank b = true -> trim (a ++ s ++ b) = trim s.
Proof.
  intros Ha Hb. unfold trim. rewrite (trimStart_blank_prefix a _ Ha).
  destruct (blank s) eqn:Es.
  - rewrite (trimStart_blank s Es).
    rewrite trimStart_blank; [reflexivity|]. now rewrite blank_app, Es.
  - rewrite (trimStart_app_solid s b Es). now apply trimEnd_blank_suffix.
Qed.

Lemma checkPatterns_Returned ps s :
  checkPatterns ps s = Returned tt -> Forall (fun p => test p s = false) ps.
Proof.
  induction ps as [|p ps IH]; cbn [checkPatterns]; [constructor|].
  destruct (test p s) eqn:E; [discriminate|]. intros H. constructor; auto.
Qed.

End GuardFacts.

(** [validate] accepts a string exactly when something is left of it after
    trimming and no substring of the trimmed text is in the language of a
    deny-list pattern. *)
Theorem validate_accepts_exactly (q : jsstr) :
  validate (VStr q) = Returned tt
  <-> blank q = false
      /\ Forall (fun p => ~ RegExp.Matches p (trim q)) DANGEROUS_PATTERNS.
Proof.
  split.
  - intros H. unfold validate in H.
    destruct (trim q) as [|c t] eqn:E; [discriminate|]. split.
    + destruct (blank q) eqn:Eb; [|reflexivity].
      apply GuardFacts.trim_nil_iff in Eb. congruence.
    + apply GuardFacts.checkPatterns_Returned in H.
      eapply Forall_impl; [|exact H]. intros p Hp Hm.
      apply RegExpFacts.test_spec in Hm. congruence.
  - intros [Hb Hf]. apply ValidatorFacts.validate_accepts; auto.
    intros E. apply GuardFacts.trim_nil_iff in E. congruence.
Qed.

(** White space before and after a query does not change the verdict of
    [validate]. *)
Theorem validate_ignores_padding (a q b : jsstr) :
  blank a = true -> blank b = true ->
  validate (VStr (a ++ q ++ b)) = validate (VStr q).
Proof.
  intros Ha Hb. unfold validate.
  rewrite (GuardFacts.trim_padding a q b Ha Hb). reflexivity.
Qed.

Lemma padded_select_is_judged_alike :
  validate (VStr (lit "  " ++ lit "SELECT 1" ++ [10]))
  = validate (VStr (lit "SELECT 1")).
Proof.
  apply validate_ignores_padding; vm_compute; reflexivity.
Defined.

Module MentionFacts.
Import RegExp RegExpFacts StringFacts ValidatorFacts GuardFacts.

Lemma prefixIgnoreCase_intro p w post :
  Forall2 (fun x c => eqIgnoreCase x c = true) w p ->
  prefixIgnoreCase p (w ++ post) = true.
Proof.
  induction 1 as [|x c w p Hx _ IH]; cbn [prefixIgnoreCase app].
  - now destruct post.
  - now rewrite Hx, IH.
Qed.

Lemma prefixIgnoreCase_elim p s :
  prefixIgnoreCase p s = true ->
  exists w post,
    s = w ++ post /\ Forall2 (fun x c => eqIgnoreCase x c = true) w p.
Proof.
  revert s. induction p as [|c p IH]; intros s H.
  - exists [], s. split; [reflexivity | constructor].
  - destruct s as [|x s]; [discriminate|]. cbn [prefixIgnoreCase] in H.
    apply andb_true_iff in H as [Hx H].
    destruct (IH s H) as (w & post & -> & Hw).
    exists (x :: w), post. split; [reflexivity | now constructor].
Qed.

(** [mentions] decides [containsIgnoreCase]. *)
Lemma mentions_iff p s : mentions p s = true <-> containsIgnoreCase p s.
Proof.
  split.
  - induction s as [|x s IH]; cbn [mentions]; intros H.
    + rewrite orb_false_r in H.
      destruct (prefixIgnoreCase_elim p [] H) as (w & post & E & Hw).
      exists [], w, post. auto.
    + apply orb_true_iff in H as [H|H].
      * destruct (prefixIgnoreCase_elim p _ H) as (w & post & E & Hw).
        exists [], w, post. auto.
      * destruct (IH H) as (pre & w & post & -> & Hw).
        exists (x :: pre), w, post. auto.
  - intros (pre & w & post & -> & Hw).
    induction pre as [|x pre IH].
    + cbn [app]. destruct (w ++ post) eqn:E; cbn [mentions];
        rewrite <- E, (prefixIgnoreCase_intro p w post Hw); reflexivity.
    + cbn [app mentions]. rewrite IH. apply orb_true_r.
Qed.

Lemma containsIgnoreCase_inside p a s b :
  containsIgnoreCase p s -> containsIgnoreCase p (a ++ s ++ b).
Proof.
  intros (pre & w & post & -> & Hw). exists (a ++ pre), w, (post ++ b).
  split; [|exact Hw]. now rewrite <- !app_assoc.
Qed.

Lemma charI_letter x c :
  isLower c = true -> charI (c - 32) x = true -> eqIgnoreCase x c = true.
Proof.
  intros Hc H.
  assert (R : 97 <= c <= 122).
  { unfold isLower in Hc. apply andb_true_iff in Hc as [H1 H2].
    apply N.leb_le in H1, H2. lia. }
  assert (Hu : isUpper (c - 32) = true).
  { unfold isUpper. apply andb_true_iff. split; apply N.leb_le; lia. }
  assert (Hnc : isUpper c = false).
  { unfold isUpper. apply andb_false_iff. right. apply N.leb_gt. lia. }
  unfold charI in H. rewrite Hu in H. unfold eqIgnoreCase, toLowerAscii.
  rewrite Hnc. apply orb_true_iff in H as [H|H]; apply N.eqb_eq in H; subst x.
  - rewrite Hu. apply N.eqb_eq. lia.
  - replace (c - 32 + 32) with c by lia. rewrite Hnc. apply N.eqb_refl.
Qed.

Lemma word_from_charI w ps :
  Forall (fun c => isLower c = true) ps ->
  Forall2 (fun x p => charI p x = true) w (map (fun c => c - 32) ps) ->
  Forall2 (fun x c => eqIgnoreCase x c = true) w ps.
Proof.
  intros Hps. revert w. induction Hps as [|c ps Hc _ IH]; intros w H;
    inversion H; subst; constructor; auto using charI_letter.
Qed.

Lemma Lang_chars_split ps rest w :
  Lang (map (fun p => Atom (charI p) Once) ps ++ rest) w ->
  exists w1 w2,
    w = w1 ++ w2 /\ Forall2 (fun x p => charI p x = true) w1 ps /\ Lang rest w2.
Proof.
  revert w. induction ps as [|p ps IH]; intros w H.
  - exists [], w. repeat split; [constructor | exact H].
  - cbn [map app] in H.
    apply Lang_once_inv in H as (x & w' & -> & Hx & H).
    destruct (IH w' H) as (w1 & w2 & -> & H1 & H2).
    exists (x :: w1), w2. repeat split; [now constructor | exact H2].
Qed.

Lemma Lang_chars_join ps rest w1 w2 :
  Forall2 (fun x p => charI p x = true) w1 ps -> Lang rest w2 ->
  Lang (map (fun p => Atom (charI p) Once) ps ++ rest) (w1 ++ w2).
Proof.
  intros H1 H2. induction H1; cbn [map app]; [exact H2 | now constructor].
Qed.

Lemma Lang_plus_join c p w1 w2 :
  w1 <> [] -> forallb c w1 = true -> Lang p w2 ->
  Lang (Atom c OneOrMore :: p) (w1 ++ w2).
Proof.
  destruct w1 as [|x w1]; [congruence|]. intros _ H H2.
  cbn [forallb] in H. apply andb_true_iff in H as [Hx H].
  cbn [app]. constructor; [exact Hx | now apply Lang_star_app].
Qed.

(** A pattern that starts with a keyword matches only in strings that
    mention the keyword. *)
Lemma keyword_pattern_mentions kw up rest atEnd s :
  up = map (fun c => c - 32) kw ->
  Forall (fun c => isLower c = true) kw ->
  Matches (Make false (map (fun p => Atom (charI p) Once) up ++ rest) atEnd) s ->
  containsIgnoreCase kw s.
Proof.
  intros -> Hkw (pre & w & post & -> & HL & _).
  cbn [body] in HL.
  apply Lang_chars_split in HL as (w1 & w2 & -> & H1 & _).
  exists pre, w1, (w2 ++ post). split; [now rewrite <- app_assoc|].
  now apply word_from_charI.
Qed.

Lemma trim_keeps_ends pre w post x a b y :
  w = x :: a -> w = b ++ [y] ->
  isWhiteSpace x = false -> isWhiteSpace y = false ->
  exists pre' post', trim (pre ++ w ++ post) = pre' ++ w ++ post'.
Proof.
  intros Ea Eb Hx Hy. unfold trim, trimEnd. subst w.
  destruct (trimStart_keeps pre x (a ++ post) Hx) as (pre' & E1).
  cbn [app]. rewrite E1.
  change (pre' ++ x :: a ++ post) with (pre' ++ (x :: a) ++ post).
  rewrite Eb.
  replace (rev (pre' ++ (b ++ [y]) ++ post))
    with (rev post ++ y :: (rev b ++ rev pre')).
  2:{ rewrite !rev_app_distr. cbn [rev app]. rewrite <- !app_assoc. reflexivity. }
  destruct (trimStart_keeps (rev post) y (rev b ++ rev pre') Hy) as (post' & E2).
  rewrite E2. exists pre', (rev post').
  rewrite rev_app_distr. cbn [rev]. rewrite rev_app_distr, !rev_involutive.
  change (x :: a ++ rev post') with ((x :: a) ++ rev post').
  rewrite Eb, <- !app_assoc. reflexivity.
Qed.

(** A deny-list word standing anywhere in the query is found by
    [validate], when it neither starts nor ends with white space. *)
Lemma validate_denied_inside p pre w post x a b y :
  In p DANGEROUS_PATTERNS ->
  anchorStart p = false -> anchorEnd p = false ->
  Lang (body p) w ->
  w = x :: a -> w = b ++ [y] ->
  isWhiteSpace x = false -> isWhiteSpace y = false ->
  validate (VStr (pre ++ w ++ post)) = Thrown (mkError dangerousMessage).
Proof.
  intros Hin Hs He HL Ea Eb Hx Hy.
  destruct (trim_keeps_ends pre w post x a b y Ea Eb Hx Hy) as (pre' & post' & E).
  apply validate_denied. rewrite E. apply Exists_exists. exists p.
  split; [exact Hin|]. exists pre', w, post'. repeat split; auto; congruence.
Qed.

Lemma letters_head w c ps :
  isLower c = true ->
  Forall2 (fun x k => eqIgnoreCase x k = true) w (c :: ps) ->
  exists x a, w = x :: a /\ isWhiteSpace x = false.
Proof.
  intros Hc H. inversion H; subst. eexists _, _. split; [reflexivity|].
  eapply letter_not_space; eauto.
Qed.

End MentionFacts.

Module DenyFacts.
Import RegExp RegExpFacts StringFacts ValidatorFacts GuardFacts MentionFacts.

Lemma letters_last w ps :
  ps <> [] -> Forall (fun c => isLower c = true) ps ->
  Forall2 (fun x k => eqIgnoreCase x k = true) w ps ->
  exists b y, w = b ++ [y] /\ isWhiteSpace y = false.
Proof.
  intros Hne Hps H.
  assert (Hw : w <> []) by (intros ->; inversion H; subst; congruence).
  destruct (exists_last Hw) as (b & y & ->). exists b, y.
  split; [reflexivity|].
  pose proof (word_not_space _ _ Hps H) as Hs.
  apply Forall_app in Hs as [_ Hs]. now inversion Hs.
Qed.

Lemma upper_DROP : lit "DROP" = map (fun c => c - 32) (lit "drop").
Proof. vm_compute. reflexivity. Qed.

Lemma upper_TABLE : lit "TABLE" = map (fun c => c - 32) (lit "table").
Proof. vm_compute. reflexivity. Qed.

Lemma upper_DATABASE : lit "DATABASE" = map (fun c => c - 32) (lit "database").
Proof. vm_compute. reflexivity. Qed.

Lemma upper_DELETE : lit "DELETE" = map (fun c => c - 32) (lit "delete").
Proof. vm_compute. reflexivity. Qed.

Lemma upper_FROM : lit "FROM" = map (fun c => c - 32) (lit "from").
Proof. vm_compute. reflexivity. Qed.

Lemma upper_WHERE : lit "WHERE" = map (fun c => c - 32) (lit "where").
Proof. vm_compute. reflexivity. Qed.

Lemma upper_TRUNCATE : lit "TRUNCATE" = map (fun c => c - 32) (lit "truncate").
Proof. vm_compute. reflexivity. Qed.

Lemma lower_word (s : string) :
  forallb isLower (lit s) = true -> Forall (fun c => isLower c = true) (lit s).
Proof. intros H. apply Forall_forall. now apply forallb_forall. Qed.

(** The words of a keyword pattern, from the words of its lower-case
    spelling. *)
Lemma keyword_chars w up kw :
  up = map (fun c => c - 32) kw ->
  Forall (fun c => isLower c = true) kw ->
  Forall2 (fun x c => eqIgnoreCase x c = true) w kw ->
  Forall2 (fun x p => charI p x = true) w up.
Proof. intros -> Hk H. now apply word_charI. Qed.

Lemma letters_first w ps :
  ps <> [] -> Forall (fun c => isLower c = true) ps ->
  Forall2 (fun x k => eqIgnoreCase x k = true) w ps ->
  exists x a, w = x :: a /\ isWhiteSpace x = false.
Proof.
  intros Hne Hps H. destruct H as [|x c w ps Hx H]; [congruence|].
  exists x, w. split; [reflexivity|]. inversion Hps; subst.
  now apply (letter_not_space x c).
Qed.

Lemma charI_self c : isUpper c = false -> isLower c = false -> charI c c = true.
Proof. intros Hu Hl. unfold charI. rewrite Hu, Hl. apply N.eqb_refl. Qed.

End DenyFacts.

(** A query with something in it that mentions none of "drop", "delete"
    and "truncate", in any letter case, passes [validate]: the deny list
    rejects nothing else. *)
Theorem keyword_free_queries_pass (q : jsstr) :
  blank q = false ->
  mentions (lit "drop") q = false ->
  mentions (lit "delete") q = false ->
  mentions (lit "truncate") q = false ->
  validate (VStr q) = Returned tt.
Proof.
  intros Hb Hdrop Hdelete Htruncate.
  assert (Hin : forall kw, containsIgnoreCase kw (trim q) -> mentions kw q = true).
  { intros kw H. apply MentionFacts.mentions_iff.
    destruct (GuardFacts.trim_split q) as (a & b & E & _).
    rewrite E. now apply MentionFacts.containsIgnoreCase_inside. }
  apply ValidatorFacts.validate_accepts; [exact Hb | |].
  - unfold DANGEROUS_PATTERNS, RegExp.litI.
    repeat apply Forall_cons; [| | | |apply Forall_nil]; intros Hm.
    + apply (MentionFacts.keyword_pattern_mentions (lit "drop") (lit "DROP")
               _ _ _ DenyFacts.upper_DROP
               (DenyFacts.lower_word "drop" eq_refl)) in Hm.
      apply Hin in Hm. congruence.
    + apply (MentionFacts.keyword_pattern_mentions (lit "drop") (lit "DROP")
               _ _ _ DenyFacts.upper_DROP
               (DenyFacts.lower_word "drop" eq_refl)) in Hm.
      apply Hin in Hm. congruence.
    + apply (MentionFacts.keyword_pattern_mentions (lit "delete") (lit "DELETE")
               _ _ _ DenyFacts.upper_DELETE
               (DenyFacts.lower_word "delete" eq_refl)) in Hm.
      apply Hin in Hm. congruence.
    + rewrite <- (app_nil_r (map _ (lit "TRUNCATE"))) in Hm.
      apply (MentionFacts.keyword_pattern_mentions (lit "truncate") (lit "TRUNCATE")
               _ _ _ DenyFacts.upper_TRUNCATE
               (DenyFacts.lower_word "truncate" eq_refl)) in Hm.
      apply Hin in Hm. congruence.
  - intros E. apply GuardFacts.trim_nil_iff in E. congruence.
Qed.

Lemma readme_select_passes :
  validate (VStr (lit "SELECT * FROM usuarios LIMIT 5")) = Returned tt.
Proof.
  apply keyword_free_queries_pass; vm_compute; reflexivity.
Defined.

(** "drop", white space and "table" or "database", in any letter case and
    with any amount of white space between the two words, make [validate]
    reject the query, wherever in it they stand. *)
Theorem drop_statements_are_rejected (pre d ws t post : jsstr) :
  Forall2 (fun x c => eqIgnoreCase x c = true) d (lit "drop") ->
  ws <> [] -> blank ws = true ->
  Forall2 (fun x c => eqIgnoreCase x c = true) t (lit "table")
  \/ Forall2 (fun x c => eqIgnoreCase x c = true) t (lit "database") ->
  validate (VStr (pre ++ d ++ ws ++ t ++ post))
  = Thrown (mkError dangerousMessage).
Proof.
  intros Hd Hne Hws Ht.
  destruct (DenyFacts.letters_first d (lit "drop")
              ltac:(vm_compute; discriminate)
              (DenyFacts.lower_word "drop" eq_refl) Hd) as (x & a & Ed & Hx).
  assert (Hlast : exists b y, t = b ++ [y] /\ isWhiteSpace y = false).
  { destruct Ht as [Ht|Ht].
    - exact (DenyFacts.letters_last t (lit "table")
               ltac:(vm_compute; discriminate)
               (DenyFacts.lower_word "table" eq_refl) Ht).
    - exact (DenyFacts.letters_last t (lit "database")
               ltac:(vm_compute; discriminate)
               (DenyFacts.lower_word "database" eq_refl) Ht). }
  destruct Hlast as (b & y & Et & Hy).
  replace (pre ++ d ++ ws ++ t ++ post) with (pre ++ (d ++ ws ++ t) ++ post)
    by (rewrite <- !app_assoc; reflexivity).
  pose proof (DenyFacts.keyword_chars d _ _ DenyFacts.upper_DROP
                (DenyFacts.lower_word "drop" eq_refl) Hd) as Cd.
  destruct Ht as [Ht|Ht].
  - apply (MentionFacts.validate_denied_inside
             (RegExp.Make false
                (RegExp.litI "DROP" ++ [RegExp.space RegExp.OneOrMore]
                 ++ RegExp.litI "TABLE") false)
             pre (d ++ ws ++ t) post x (a ++ ws ++ t) (d ++ ws ++ b) y);
      try reflexivity; try assumption.
    + right. left. reflexivity.
    + cbn [RegExp.body]. unfold RegExp.litI, RegExp.space.
      apply MentionFacts.Lang_chars_join; [exact Cd|]. cbn [app].
      apply MentionFacts.Lang_plus_join; [exact Hne | exact Hws |].
      apply RegExpFacts.Lang_litI_chars.
      exact (DenyFacts.keyword_chars t _ _ DenyFacts.upper_TABLE
               (DenyFacts.lower_word "table" eq_refl) Ht).
    + rewrite Ed. reflexivity.
    + rewrite Et, <- !app_assoc. reflexivity.
  - apply (MentionFacts.validate_denied_inside
             (RegExp.Make false
                (RegExp.litI "DROP" ++ [RegExp.space RegExp.OneOrMore]
                 ++ RegExp.litI "DATABASE") false)
             pre (d ++ ws ++ t) post x (a ++ ws ++ t) (d ++ ws ++ b) y);
      try reflexivity; try assumption.
    + left. reflexivity.
    + cbn [RegExp.body]. unfold RegExp.litI, RegExp.space.
      apply MentionFacts.Lang_chars_join; [exact Cd|]. cbn [app].
      apply MentionFacts.Lang_plus_join; [exact Hne | exact Hws |].
      apply RegExpFacts.Lang_litI_chars.
      exact (DenyFacts.keyword_chars t _ _ DenyFacts.upper_DATABASE
               (DenyFacts.lower_word "database" eq_refl) Ht).
    + rewrite Ed. reflexivity.
    + rewrite Et, <- !app_assoc. reflexivity.
Qed.

Lemma spaced_drop_database_is_rejected :
  validate (VStr (lit "/* x */ " ++ lit "Drop" ++ [9; 10] ++ lit "DataBase"
                  ++ lit " shop"))
  = Thrown (mkError dangerousMessage).
Proof.
  apply drop_statements_are_rejected.
  - vm_compute. repeat constructor.
  - discriminate.
  - reflexivity.
  - right. vm_compute. repeat constructor.
Defined.

(** A [DELETE FROM ... WHERE ... 1=1] on one line is rejected: "delete",
    white space, "from", then "where" and [1 = 1] further on, with no line
    terminator in the two stretches between, whatever the letter case and
    the white space around the equals sign. *)
Theorem tautology_deletes_are_rejected
  (pre d s1 f m1 wh m2 s2 s3 post : jsstr) :
  Forall2 (fun x c => eqIgnoreCase x c = true) d (lit "delete") ->
  s1 <> [] -> blank s1 = true ->
  Forall2 (fun x c => eqIgnoreCase x c = true) f (lit "from") ->
  singleLine m1 = true ->
  Forall2 (fun x c => eqIgnoreCase x c = true) wh (lit "where") ->
  singleLine m2 = true ->
  blank s2 = true -> blank s3 = true ->
  validate (VStr (pre ++ d ++ s1 ++ f ++ m1 ++ wh ++ m2 ++ lit "1" ++ s2
                  ++ lit "=" ++ s3 ++ lit "1" ++ post))
  = Thrown (mkError dangerousMessage).
Proof.
  intros Hd Hne Hs1 Hf Hm1 Hwh Hm2 Hs2 Hs3.
  destruct (DenyFacts.letters_first d (lit "delete")
              ltac:(vm_compute; discriminate)
              (DenyFacts.lower_word "delete" eq_refl) Hd) as (x & a & Ed & Hx).
  assert (One : lit "1" = [49]) by (vm_compute; reflexivity).
  assert (Eq : lit "=" = [61]) by (vm_compute; reflexivity).
  assert (C1 : Forall2 (fun x p => RegExp.charI p x = true) (lit "1") (lit "1")).
  { rewrite One. constructor; [|constructor].
    apply DenyFacts.charI_self; reflexivity. }
  assert (Ce : Forall2 (fun x p => RegExp.charI p x = true) (lit "=") (lit "=")).
  { rewrite Eq. constructor; [|constructor].
    apply DenyFacts.charI_self; reflexivity. }
  set (w := d ++ s1 ++ f ++ m1 ++ wh ++ m2 ++ lit "1" ++ s2 ++ lit "=" ++ s3
            ++ lit "1").
  replace (pre ++ d ++ s1 ++ f ++ m1 ++ wh ++ m2 ++ lit "1" ++ s2 ++ lit "="
           ++ s3 ++ lit "1" ++ post)
    with (pre ++ w ++ post)
    by (unfold w; rewrite <- !app_assoc; reflexivity).
  apply (MentionFacts.validate_denied_inside
           (RegExp.Make false
              (RegExp.litI "DELETE" ++ [RegExp.space RegExp.OneOrMore]
               ++ RegExp.litI "FROM" ++ [RegExp.dot RegExp.ZeroOrMore]
               ++ RegExp.litI "WHERE" ++ [RegExp.dot RegExp.ZeroOrMore]
               ++ RegExp.litI "1" ++ [RegExp.space RegExp.ZeroOrMore]
               ++ RegExp.litI "=" ++ [RegExp.space RegExp.ZeroOrMore]
               ++ RegExp.litI "1") false)
           pre w post x
           (a ++ s1 ++ f ++ m1 ++ wh ++ m2 ++ lit "1" ++ s2 ++ lit "=" ++ s3
            ++ lit "1")
           (d ++ s1 ++ f ++ m1 ++ wh ++ m2 ++ lit "1" ++ s2 ++ lit "=" ++ s3)
           49);
    try reflexivity; try assumption.
  - right. right. left. reflexivity.
  - cbn [RegExp.body]. unfold w, RegExp.litI, RegExp.space, RegExp.dot.
    apply MentionFacts.Lang_chars_join;
      [exact (DenyFacts.keyword_chars d _ _ DenyFacts.upper_DELETE
                (DenyFacts.lower_word "delete" eq_refl) Hd)|].
    cbn [app].
    apply MentionFacts.Lang_plus_join; [exact Hne | exact Hs1 |].
    apply MentionFacts.Lang_chars_join;
      [exact (DenyFacts.keyword_chars f _ _ DenyFacts.upper_FROM
                (DenyFacts.lower_word "from" eq_refl) Hf)|].
    cbn [app].
    apply RegExpFacts.Lang_star_app; [exact Hm1|].
    apply MentionFacts.Lang_chars_join;
      [exact (DenyFacts.keyword_chars wh _ _ DenyFacts.upper_WHERE
                (DenyFacts.lower_word "where" eq_refl) Hwh)|].
    cbn [app].
    apply RegExpFacts.Lang_star_app; [exact Hm2|].
    apply MentionFacts.Lang_chars_join; [exact C1|]. cbn [app].
    apply RegExpFacts.Lang_star_app; [exact Hs2|].
    apply MentionFacts.Lang_chars_join; [exact Ce|]. cbn [app].
    apply RegExpFacts.Lang_star_app; [exact Hs3|].
    apply RegExpFacts.Lang_litI_chars. exact C1.
  - unfold w. rewrite Ed. reflexivity.
  - unfold w. rewrite One, <- !app_assoc. reflexivity.
Qed.

Lemma delete_where_one_is_rejected :
  validate (VStr ([] ++ lit "delete" ++ lit "  " ++ lit "From"
                  ++ lit " users " ++ lit "WHERE" ++ lit " id > 5 OR "
                  ++ lit "1" ++ lit " " ++ lit "=" ++ [] ++ lit "1"
                  ++ lit ";"))
  = Thrown (mkError dangerousMessage).
Proof.
  apply tautology_deletes_are_rejected;
    try (vm_compute; discriminate);
    try (vm_compute; reflexivity);
    vm_compute; repeat constructor.
Defined.

(** ** The tool operations, further *)

Section ToolFacts.

Variable drv : Driver.


End ToolFacts.



(** A [describe_table] call that gives no [table_name] is not refused:
    the missing argument reads as [undefined], which passes the name check
    as the text "undefined", and [DESCRIBE `undefined`] is sent.  An
    [execute_query] call that gives no [query] is answered by an error
    envelope, and nothing is sent. *)
Theorem missing_tool_arguments
  (drv : Driver) (config : MySQLConfig) (args : option object)
  (w : World drv) (h : Handle drv) :
  connection w = Some h ->
  (optProp args (lit "table_name") = VUndefined ->
   truthy (optProp args (lit "database")) = false ->
   sent (snd (handle drv config (CallTool (lit "describe_table") args) w))
   = sent w ++ [lit "DESCRIBE `undefined`"])
  /\ (optProp args (lit "query") = VUndefined ->
      exists m,
        handle drv config (CallTool (lit "execute_query") args) w
        = (Returned (ToolResponse (error m)), w)).
Proof.
  intros Hc. pose proof (ensureConnection_when_connected drv config w h Hc) as He.
  split.
  - intros Ht Hd. cbn [handle]. unfold bind.
    rewrite (callTool_describe_table drv config args w w He), Ht.
    assert (S : sanitizeTableName VUndefined = Returned VUndefined)
      by (vm_compute; reflexivity).
    assert (D : describeStatement VUndefined = lit "DESCRIBE `undefined`")
      by (vm_compute; reflexivity).
    unfold describeTable, tryCatch, bind, lift. rewrite S, Hd. unfold ret at 1.
    rewrite (execute_when_connected drv w h _ Hc), D.
    destruct (fst (conn_execute drv h (lit "DESCRIBE `undefined`") (server w)));
      reflexivity.
  - intros Hq. cbn [handle]. unfold bind.
    rewrite (callTool_execute_query drv config args w w He), Hq.
    unfold executeQuery, tryCatch, bind, lift. cbn [validate].
    unfold ret. eexists. reflexivity.
Qed.

Lemma describe_table_with_no_arguments :
  sent (snd (handle Sample.driver Sample.config
               (CallTool (lit "describe_table") None)
               (Sample.connected Sample.shop)))
  = sent (Sample.connected Sample.shop) ++ [lit "DESCRIBE `undefined`"].
Proof.
  exact (proj1 (missing_tool_arguments Sample.driver Sample.config None
                  (Sample.connected Sample.shop) tt eq_refl)
               eq_refl eq_refl).
Defined.

(** ** The connection across requests *)

Section FrameFacts.

Variable drv : Driver.

Lemma sameConnection_refl (w : World drv) : sameConnection w w.
Proof. split; reflexivity. Qed.

Lemma sameConnection_trans (w1 w2 w3 : World drv) :
  sameConnection w1 w2 -> sameConnection w2 w3 -> sameConnection w1 w3.
Proof. intros [A B] [C D]. split; congruence. Qed.


Lemma framed_ret A (a : A) : framed (drv := drv) (ret a).
Proof. intros w. apply sameConnection_refl. Qed.

Lemma framed_throw A e : framed (drv := drv) (A := A) (throw e).
Proof. intros w. apply sameConnection_refl. Qed.

Lemma framed_lift A (o : outcome A) : framed (drv := drv) (lift o).
Proof. intros w. apply sameConnection_refl. Qed.

Lemma framed_bind A B (m : M drv A) (k : A -> M drv B) :
  framed m -> (forall a, framed (k a)) -> framed (bind m k).
Proof.
  intros Hm Hk w. unfold bind. specialize (Hm w).
  destruct (m w) as [[a|e] w1]; cbn [snd] in *; [|exact Hm].
  exact (sameConnection_trans _ _ _ Hm (Hk a w1)).
Qed.

Lemma framed_tryCatch A (m : M drv A) (h : JsError -> M drv A) :
  framed m -> (forall e, framed (h e)) -> framed (tryCatch m h).
Proof.
  intros Hm Hh w. unfold tryCatch. specialize (Hm w).
  destruct (m w) as [[a|e] w1]; cbn [snd] in *; [exact Hm|].
  exact (sameConnection_trans _ _ _ Hm (Hh e w1)).
Qed.

Lemma framed_execute q : framed (execute drv q).
Proof.
  intros w. unfold execute. destruct (connection w) as [h|] eqn:E.
  - destruct (conn_execute drv h q (server w)).
    split; cbn [snd connection live]; [symmetry; exact E | reflexivity].
  - apply sameConnection_refl.
Qed.

Lemma framed_useDatabase database : framed (useDatabase drv database).
Proof.
  apply framed_bind; [apply framed_execute | intros; apply framed_ret].
Qed.

Lemma framed_executeQuery query database :
  framed (executeQuery drv query database).
Proof.
  apply framed_tryCatch; [|intros; apply framed_ret].
  apply framed_bind; [apply framed_lift | intros _].
  apply framed_bind.
  - destruct (truthy database); [apply framed_useDatabase | apply framed_ret].
  - intros _. apply framed_bind; [apply framed_execute | intros; apply framed_ret].
Qed.

Lemma framed_describeTable tableName database :
  framed (describeTable drv tableName database).
Proof.
  apply framed_tryCatch; [|intros; apply framed_ret].
  apply framed_bind; [apply framed_lift | intros sanitizedName].
  apply framed_bind.
  - destruct (truthy database); [apply framed_useDatabase | apply framed_ret].
  - intros _. apply framed_bind; [apply framed_execute | intros; apply framed_ret].
Qed.

Lemma framed_getDatabases : framed (getDatabases drv).
Proof. apply framed_bind; [apply framed_execute | intros; apply framed_ret]. Qed.

Lemma framed_getTables : framed (getTables drv).
Proof. apply framed_bind; [apply framed_execute | intros; apply framed_ret]. Qed.

Lemma framed_describeAll tables : forall acc, framed (describeAll drv tables acc).
Proof.
  induction tables as [|table rest IH]; intros acc; cbn [describeAll].
  - apply framed_ret.
  - apply framed_bind; [apply framed_lift | intros tableName].
    apply framed_bind; [apply framed_execute | intros columns]. apply IH.
Qed.

Lemma framed_getSchema : framed (getSchema drv).
Proof.
  apply framed_bind; [apply framed_execute | intros [l|hd]].
  - apply framed_bind; [apply framed_describeAll | intros; apply framed_ret].
  - apply framed_throw.
Qed.

Variable config : MySQLConfig.



End FrameFacts.



(** ** The resources and the prompts, further *)

Section ResourceFacts.

Variable drv : Driver.

Lemma describeAll_sent (h : Handle drv) tables :
  forall acc w res w',
    connection w = Some h ->
    describeAll drv tables acc w = (Returned res, w') ->
    exists names,
      Forall2 (fun row n => firstValue row = Returned n) tables names
      /\ sent w' = sent w ++ map (fun n => describeStatement n) names.
Proof.
  induction tables as [|table rest IH]; intros acc w res w' Hc H.
  - cbn [describeAll] in H. unfold ret in H. injection H as _ <-.
    exists []. split; [constructor | cbn [map]; now rewrite app_nil_r].
  - cbn [describeAll] in H. unfold bind at 1, lift in H.
    destruct (firstValue table) as [tableName|e] eqn:Ef; [|discriminate].
    unfold bind at 1 in H.
    rewrite (execute_when_connected drv w h _ Hc) in H.
    destruct (fst (conn_execute drv h (describeStatement tableName) (server w)))
      as [columns|e]; [|discriminate].
    apply IH in H; [|reflexivity].
    destruct H as (names & HF & Hs). exists (tableName :: names). split.
    + constructor; assumption.
    + rewrite Hs. cbn [sent map]. rewrite <- app_assoc. reflexivity.
Qed.

End ResourceFacts.

(** [getSchema] makes one round trip per table: when it returns, the
    statements it sent are [SHOW TABLES] and then one [DESCRIBE] for each
    row of the listing, in the order of the rows, each for the first value
    of its row, taken as it is. *)
Theorem getSchema_describes_each_table_once
  (drv : Driver) (w : World drv) (h : Handle drv) (out : ReadResourceResult) :
  connection w = Some h ->
  fst (getSchema drv w) = Returned out ->
  exists rows names,
    fst (conn_execute drv h showTables (server w)) = Returned (Rows rows)
    /\ Forall2 (fun row n => firstValue row = Returned n) rows names
    /\ sent (snd (getSchema drv w))
       = sent w ++ showTables :: map (fun n => describeStatement n) names.
Proof.
  intros Hc H. unfold getSchema in H |- *.
  unfold bind at 1 in H. unfold bind at 1.
  rewrite (execute_when_connected drv w h _ Hc) in H |- *.
  destruct (fst (conn_execute drv h showTables (server w)))
    as [[rows|hd]|e] eqn:Er; [| discriminate | discriminate].
  unfold bind in H |- *.
  match type of H with context [describeAll drv rows [] ?w0] =>
    destruct (describeAll drv rows [] w0) as [[res|e] w1] eqn:Ed end;
    [|discriminate].
  apply (describeAll_sent drv h) in Ed; [|reflexivity].
  destruct Ed as (names & HF & Hs). exists rows, names.
  split; [reflexivity|]. split; [exact HF|].
  unfold ret. cbn [snd]. rewrite Hs. cbn [sent].
  rewrite <- app_assoc. reflexivity.
Qed.

Lemma sample_schema_statements :
  exists rows names,
    fst (conn_execute Sample.driver tt showTables
           (server (Sample.connected Sample.shop_dashed)))
    = Returned (Rows rows)
    /\ Forall2 (fun row n => firstValue row = Returned n) rows names
    /\ sent (snd (getSchema Sample.driver (Sample.connected Sample.shop_dashed)))
       = sent (Sample.connected Sample.shop_dashed)
         ++ showTables :: map (fun n => describeStatement n) names.
Proof.
  assert (G : fst (getSchema Sample.driver (Sample.connected Sample.shop_dashed))
              = Returned (schemaResource Sample.driver
                  [ (VStr (lit "users"), VArr Sample.users_columns);
                    (VStr (lit "order-items"), VArr Sample.order_items_columns) ]))
    by (vm_compute; reflexivity).
  exact (getSchema_describes_each_table_once Sample.driver
           (Sample.connected Sample.shop_dashed) tt _ eq_refl G).
Defined.

(** A resource read that returns answers the uri that was asked for, and
    that uri is one the catalogue of list-resources offers: the result
    holds one content item with the requested uri and the JSON media
    type. *)
Theorem resource_reads_answer_the_listed_uri
  (drv : Driver) (config : MySQLConfig) (u : jsstr) (w w' : World drv)
  (r : ReadResourceResult) :
  readResource drv config u w = (Returned r, w') ->
  In u (map resource_uri resources)
  /\ exists t,
       contents r
       = [ {| uri := u; mimeType := lit "application/json"; res_text := t |} ].
Proof.
  unfold readResource, tryCatch, bind at 1.
  destruct (ensureConnection drv config w) as [[[]|e] w1]; [|discriminate].
  destruct (streq u (lit "mysql://databases")) eqn:E1.
  { apply streq_eq in E1. subst u. unfold getDatabases, bind.
    destruct (execute drv (lit "SHOW DATABASES") w1) as [[rows|e] w2];
      [|discriminate].
    unfold ret. intros [= <- _]. split; [left; reflexivity|].
    eexists. reflexivity. }
  destruct (streq u (lit "mysql://tables")) eqn:E2.
  { apply streq_eq in E2. subst u. unfold getTables, bind.
    destruct (execute drv (lit "SHOW TABLES") w1) as [[rows|e] w2];
      [|discriminate].
    unfold ret. intros [= <- _]. split; [right; left; reflexivity|].
    eexists. reflexivity. }
  destruct (streq u (lit "mysql://schema")) eqn:E3; [|discriminate].
  apply streq_eq in E3. subst u. unfold getSchema, bind at 1.
  destruct (execute drv (lit "SHOW TABLES") w1) as [[[l|hd]|e] w2];
    [| discriminate | discriminate].
  unfold bind. destruct (describeAll drv l [] w2) as [[entries|e] w3];
    [|discriminate].
  unfold ret. intros [= <- _]. split; [right; right; left; reflexivity|].
  eexists. reflexivity.
Qed.

Lemma tables_resource_on_the_sample :
  In (lit "mysql://tables") (map resource_uri resources)
  /\ exists t,
       contents (tablesResource Sample.driver
                   [ VObj [ (lit "Tables_in_shop", VStr (lit "users")) ];
                     VObj [ (lit "Tables_in_shop", VStr (lit "orders")) ] ])
       = [ {| uri := lit "mysql://tables"; mimeType := lit "application/json";
              res_text := t |} ].
Proof.
  assert (R : readResource Sample.driver Sample.config (lit "mysql://tables")
                (Sample.fresh Sample.shop)
              = (Returned (tablesResource Sample.driver
                   [ VObj [ (lit "Tables_in_shop", VStr (lit "users")) ];
                     VObj [ (lit "Tables_in_shop", VStr (lit "orders")) ] ]),
                 Build_World Sample.driver Sample.shop (Some tt)
                   [lit "SHOW TABLES"] 1))
    by (vm_compute; reflexivity).
  exact (resource_reads_answer_the_listed_uri _ _ _ _ _ _ R).
Defined.

(** The prompt catalogue and [getPrompt] agree: a prompt that
    [getPrompts] lists is served exactly when the arguments give a truthy
    value for each argument the catalogue marks as required. *)
Theorem listed_prompts_are_served (p : Prompt) (args : option object) :
  In p (prompts getPrompts) ->
  suppliesRequired p args
  <-> exists r, getPrompt (prompt_name p) args = Returned r.
Proof.
  assert (N1 : streq (lit "find_large_tables") (lit "analyze_table") = false)
    by (vm_compute; reflexivity).
  assert (N2 : streq (lit "database_overview") (lit "analyze_table") = false)
    by (vm_compute; reflexivity).
  assert (N3 : streq (lit "database_overview") (lit "find_large_tables") = false)
    by (vm_compute; reflexivity).
  unfold getPrompts. cbn [prompts In].
  intros [<- | [<- | [<- | []]]]; cbn [prompt_name]; unfold getPrompt.
  - rewrite streq_refl. unfold suppliesRequired. cbn [arguments]. split.
    + intros H.
      pose proof (H _ (or_introl eq_refl) eq_refl) as Ht. cbn [arg_name] in Ht.
      rewrite Ht. cbn [negb]. eexists. reflexivity.
    + intros [r Hr] a [<- | []] _. cbn [arg_name].
      destruct (truthy (optProp args (lit "table_name")));
        [reflexivity | discriminate].
  - rewrite N1, streq_refl. split; [intros _; eexists; reflexivity|].
    intros _ a []. 
  - rewrite N2, N3, streq_refl. split; [intros _; eexists; reflexivity|].
    intros _ a [].
Qed.

Lemma analyze_table_is_served :
  exists r,
    getPrompt (lit "analyze_table")
      (Some [ (lit "table_name", VStr (lit "users")) ]) = Returned r.
Proof.
  assert (I : In {| prompt_name := lit "analyze_table";
                    prompt_description := lit "Analisa uma tabela específica";
                    arguments :=
                      Some [ {| arg_name := lit "table_name";
                                arg_description := lit "Nome da tabela para analisar";
                                required := true |} ] |}
                 (prompts getPrompts)) by (left; reflexivity).
  apply (proj1 (listed_prompts_are_served _
                  (Some [ (lit "table_name", VStr (lit "users")) ]) I)).
  intros a [<- | []] _. vm_compute. reflexivity.
Defined.

(** The text of an error envelope tells it from the two success
    envelopes of the tool operations, whatever they carry: it starts with
    the cross mark, they start with a letter. *)
Theorem error_envelopes_are_marked
  (drv : Driver) (m : jsstr) (q t data : jsval) :
  error m <> queryResult drv q data
  /\ error m <> tableStructure drv t data
  /\ exists rest, content (error m)
                  = [ {| type := lit "text"; text := 10060 :: rest |} ].
Proof.
  split; [|split].
  - intros H. unfold error, queryResult, success in H.
    injection H as H. discriminate H.
  - intros H. unfold error, tableStructure, success in H.
    injection H as H. discriminate H.
  - assert (E : lit "❌ Erro: " = 10060 :: lit " Erro: ")
      by (vm_compute; reflexivity).
    unfold error. cbn [content]. rewrite E. cbn [app]. eexists. reflexivity.
Qed.

(** ** DatabaseConfig *)

Module ConfigFacts.

Lemma digit_range c : isDigit c = true -> 48 <= c <= 57.
Proof.
  unfold isDigit. intros H. apply andb_true_iff in H as [H1 H2].
  apply N.leb_le in H1, H2. lia.
Qed.

Lemma digitValue_digit c : isDigit c = true -> digitValue 10 c = Some (c - 48).
Proof.
  intros H. unfold digitValue. rewrite H.
  apply digit_range in H.
  replace (c - 48 <? 10) with true; [reflexivity|].
  symmetry. apply N.ltb_lt. lia.
Qed.

Lemma digitValue_other c : isDigit c = false -> digitValue 10 c = None.
Proof.
  intros H. unfold digitValue. rewrite H.
  destruct (isLower c) eqn:El.
  - unfold isLower in El. apply andb_true_iff in El as [H1 H2].
    apply N.leb_le in H1, H2.
    replace (c - 87 <? 10) with false; [reflexivity|].
    symmetry. apply N.ltb_ge. lia.
  - destruct (isUpper c) eqn:Eu; [|reflexivity].
    unfold isUpper in Eu. apply andb_true_iff in Eu as [H1 H2].
    apply N.leb_le in H1, H2.
    replace (c - 55 <? 10) with false; [reflexivity|].
    symmetry. apply N.ltb_ge. lia.
Qed.

(** The value read is that of the digits before the first character that
    is not a digit. *)
Lemma readDigits_prefix ds rest :
  forallb isDigit ds = true ->
  match rest with [] => true | c :: _ => negb (isDigit c) end = true ->
  forall acc seen,
    readDigits 10 acc seen (ds ++ rest)
    = if seen || negb (match ds with [] => true | _ => false end)
      then Some (fold_left (fun a c => a * 10 + (c - 48)) ds acc)
      else None.
Proof.
  intros Hds Hrest. induction ds as [|d ds IH]; intros acc seen.
  - cbn [app fold_left negb]. rewrite orb_false_r.
    destruct rest as [|c rest]; [reflexivity|]. cbn [readDigits].
    apply negb_true_iff in Hrest. rewrite (digitValue_other c Hrest).
    reflexivity.
  - cbn [forallb] in Hds. apply andb_true_iff in Hds as [Hd Hds].
    cbn [app readDigits]. rewrite (digitValue_digit d Hd), (IH Hds).
    cbn [orb negb fold_left]. rewrite orb_true_r. reflexivity.
Qed.

Lemma digit_not_space c : isDigit c = true -> isWhiteSpace c = false.
Proof.
  intros H. apply digit_range in H. unfold isWhiteSpace.
  repeat (apply orb_false_iff; split);
    try (apply N.eqb_neq; lia);
    apply andb_false_iff; [right | left]; apply N.leb_gt; lia.
Qed.

End ConfigFacts.

(** [MYSQL_PORT] is read leniently: when its value starts with decimal
    digits (and not with the prefix "0x"), the port is the number those
    digits denote, whatever follows them.  (Below 2^53 that number is the
    JavaScript number itself.) *)
Theorem port_is_read_leniently (env : Env) (ds rest : jsstr) :
  ds <> [] ->
  forallb isDigit ds = true ->
  match rest with [] => true | c :: _ => negb (isDigit c) end = true ->
  hexPrefixed (ds ++ rest) = false ->
  decimalValue ds < 2 ^ 53 ->
  env (lit "MYSQL_PORT") = Some (ds ++ rest) ->
  env_port (create env) = Int false (decimalValue ds).
Proof.
  intros Hne Hds Hrest Hhex _ Henv.
  destruct ds as [|d ds]; [congruence|].
  unfold create. cbn [env_port]. rewrite Henv. cbn [app orElse].
  pose proof Hds as Hd. cbn [forallb] in Hd. apply andb_true_iff in Hd as [Hd _].
  pose proof (ConfigFacts.digit_range d Hd) as R.
  unfold parseInt. cbn [trimStart].
  rewrite (ConfigFacts.digit_not_space d Hd).
  replace (d =? 45) with false by (symmetry; apply N.eqb_neq; lia).
  replace (d =? 43) with false by (symmetry; apply N.eqb_neq; lia).
  cbn [snd fst]. change (d :: ds ++ rest) with ((d :: ds) ++ rest).
  rewrite Hhex. cbn [snd fst].
  rewrite (ConfigFacts.readDigits_prefix (d :: ds) rest Hds Hrest 0 false).
  reflexivity.
Qed.

Lemma port_with_trailing_text :
  env_port (create (fun name =>
                      if streq name (lit "MYSQL_PORT")
                      then Some (lit "3307" ++ lit " # dev")
                      else None))
  = Int false (decimalValue (lit "3307")).
Proof.
  apply (port_is_read_leniently _ (lit "3307") (lit " # dev"));
    try (vm_compute; discriminate); vm_compute; reflexivity.
Defined.

(** The default port is used only when [MYSQL_PORT] is not set or is
    empty.  A value that does not start with a number (after optional
    white space and sign) is not replaced by the default: the port is
    [NaN]. *)
Theorem port_default_and_garbage (env : Env) :
  (env (lit "MYSQL_PORT") = None \/ env (lit "MYSQL_PORT") = Some [] ->
   env_port (create env) = Int false 3306)
  /\ (forall c rest,
         env (lit "MYSQL_PORT") = Some (c :: rest) ->
         isWhiteSpace c = false -> isDigit c = false ->
         c <> 45 -> c <> 43 ->
         env_port (create env) = NaN).
Proof.
  split.
  - intros [H|H]; unfold create; cbn [env_port]; rewrite H; cbn [orElse];
      vm_compute; reflexivity.
  - intros c rest H Hw Hd Hm Hp. unfold create. cbn [env_port]. rewrite H.
    cbn [orElse]. unfold parseInt. cbn [trimStart]. rewrite Hw.
    replace (c =? 45) with false by (symmetry; now apply N.eqb_neq).
    replace (c =? 43) with false by (symmetry; now apply N.eqb_neq).
    cbn [snd fst].
    assert (Hh : hexPrefixed (c :: rest) = false).
    { unfold hexPrefixed. destruct rest as [|b t]; [reflexivity|].
      replace (c =? 48) with false; [reflexivity|].
      symmetry. apply N.eqb_neq. intros ->. discriminate Hd. }
    rewrite Hh. cbn [snd fst readDigits].
    rewrite (ConfigFacts.digitValue_other c Hd). reflexivity.
Qed.

(** ** The connection test script *)

Module ScriptFacts.
Import ConnectionTest.

Section Script.

Variable drv : Driver.
Variable h : Handle drv.







End Script.

End ScriptFacts.





(** ** The lazy connection *)

Section LazyFacts.

Variable drv : Driver.
Variable config : MySQLConfig.

Lemma ensureConnection_connects (w : World drv) h sv :
  connection w = None ->
  createConnection drv config (server w) = (Returned h, sv) ->
  ensureConnection drv config w
  = (Returned tt, Build_World drv sv (Some h) (sent w) (S (live w))).
Proof.
  intros Hc He. unfold ensureConnection, isConnected, connect.
  rewrite Hc. cbn [negb]. rewrite He. reflexivity.
Qed.

Lemma guarded_connects A (body : M drv A) (k : JsError -> M drv A)
  (w : World drv) h sv :
  framed body -> (forall e, framed (k e)) ->
  connection w = None ->
  createConnection drv config (server w) = (Returned h, sv) ->
  sameConnection (Build_World drv sv (Some h) (sent w) (S (live w)))
    (snd (tryCatch (_ <- ensureConnection drv config ;; body) k w)).
Proof.
  intros Hb Hk Hc He. unfold tryCatch, bind.
  rewrite (ensureConnection_connects w h sv Hc He).
  pose proof (Hb (Build_World drv sv (Some h) (sent w) (S (live w)))) as H.
  destruct (body (Build_World drv sv (Some h) (sent w) (S (live w))))
    as [[a|e] w2]; cbn [snd] in *; [exact H|].
  exact (sameConnection_trans drv _ _ _ H (Hk e w2)).
Qed.

End LazyFacts.

(** The connection is made before the request is looked at: on a
    disconnected server whose driver accepts the connection, every tool
    call and every resource read ends with that connection in place and
    counted once, also when the tool or the resource is unknown and when
    the query or the table name is refused. *)
Theorem data_requests_connect_first
  (drv : Driver) (config : MySQLConfig) (w : World drv)
  (h : Handle drv) (sv : Server drv) :
  connection w = None ->
  createConnection drv config (server w) = (Returned h, sv) ->
  (forall name args,
      connection (snd (handle drv config (CallTool name args) w)) = Some h
      /\ live (snd (handle drv config (CallTool name args) w)) = S (live w))
  /\ (forall u,
         connection (snd (handle drv config (ReadResource u) w)) = Some h
         /\ live (snd (handle drv config (ReadResource u) w)) = S (live w)).
Proof.
  intros Hc He. split.
  - intros name args. cbn [handle]. unfold bind.
    assert (Hd : framed (if streq name (lit "execute_query")
                         then executeQuery drv (optProp args (lit "query"))
                                (optProp args (lit "database"))
                         else if streq name (lit "describe_table")
                         then describeTable drv (optProp args (lit "table_name"))
                                (optProp args (lit "database"))
                         else ret (error (lit "Tool desconhecido: " ++ name)))).
    { destruct (streq name (lit "execute_query"));
        [apply framed_executeQuery|].
      destruct (streq name (lit "describe_table"));
        [apply framed_describeTable | apply framed_ret]. }
    pose proof (guarded_connects drv config _ _
                  (fun error' =>
                     ret (error (lit "Erro ao executar " ++ name ++ lit ": "
                                 ++ message error')))
                  w h sv Hd (fun e => framed_ret drv _ _) Hc He) as [H1 H2].
    fold (callTool drv config name args) in H1, H2.
    destruct (callTool drv config name args w) as [[r|e] w1];
      cbn [snd connection live] in *; split; assumption.
  - intros u. cbn [handle]. unfold bind.
    assert (Hr : framed (if streq u (lit "mysql://databases") then getDatabases drv
                         else if streq u (lit "mysql://tables") then getTables drv
                         else if streq u (lit "mysql://schema") then getSchema drv
                         else throw (mkError (lit "Resource não encontrado: " ++ u)))).
    { destruct (streq u (lit "mysql://databases"));
        [apply framed_getDatabases|].
      destruct (streq u (lit "mysql://tables")); [apply framed_getTables|].
      destruct (streq u (lit "mysql://schema"));
        [apply framed_getSchema | apply framed_throw]. }
    pose proof (guarded_connects drv config _ _
                  (fun error' =>
                     throw (mkError (lit "Erro ao ler resource " ++ u
                                     ++ lit ": " ++ message error')))
                  w h sv Hr (fun e => framed_throw drv _ _) Hc He) as [H1 H2].
    fold (readResource drv config u) in H1, H2.
    destruct (readResource drv config u w) as [[r|e] w1];
      cbn [snd connection live] in *; split; assumption.
Qed.

Lemma refused_query_still_connects :
  connection (snd (handle Sample.driver Sample.config
                     (CallTool (lit "execute_query")
                        (Some [ (lit "query", VStr (lit "DROP TABLE users")) ]))
                     (Sample.fresh Sample.shop)))
  = Some tt
  /\ live (snd (handle Sample.driver Sample.config
                  (CallTool (lit "execute_query")
                     (Some [ (lit "query", VStr (lit "DROP TABLE users")) ]))
                  (Sample.fresh Sample.shop)))
     = S (live (Sample.fresh Sample.shop)).
Proof.
  exact (proj1 (data_requests_connect_first Sample.driver Sample.config
                  (Sample.fresh Sample.shop) tt Sample.shop eq_refl eq_refl)
               (lit "execute_query")
               (Some [ (lit "query", VStr (lit "DROP TABLE users")) ])).
Defined.
